(** * final_project_demo: the analysis module

    A shallow embedding of [src/final_project_demo/analysis.py]: the two
    procedures [choropleth] and [high_and_low], the pandas, plotly and
    [us] operations they call, and the properties the specification
    states about them.

    Conventions.
    - A Python [str] is the list of its code points.
    - A Python [float] is Rocq's primitive binary64 [float].
    - A [DataFrame] is a finite map from column names to columns.  A
      column holds strings or binary64 numbers, a missing number being
      [nan]; a column of strings holds a string in every row.  Rows are
      identified by position, which is what the labels of the default
      index are.
    - The reductions of a column of numbers are those of pandas' own
      [nanops] over numpy: the order in which [sum] adds, the entry
      that [max] and [min] return, the row that [idxmax] and [idxmin]
      name.
    - The data set handed to a procedure is one object; the state holds
      it, so that what the procedure writes through its alias [df] is
      what the caller reads afterwards.  The state also holds the
      figures displayed and the tables printed.
    - A procedure returns its result or the exception it raises,
      together with the state it leaves.
    - The directory of states ([us.states.lookup]) and the writing of a
      float without a format are outside the repository and are
      parameters of the procedures that call them. *)

From Stdlib Require Import ZArith NArith List String Ascii Bool Lia.
From Stdlib Require Import Floats Uint63 DecimalN DecimalPos.
From stdpp Require Import base option list gmap.

Set Warnings "-inexact-float".
Local Open Scope N_scope.

(* ================================================================== *)
(** ** Python strings *)
(* ================================================================== *)

Module Str.

(** A code point, and a string as the list of them. *)
Abbreviation char := N (only parsing).
Abbreviation str := (list N) (only parsing).

(** A literal of the source, all of whose characters are ASCII. *)
Definition py (s : string) : str :=
  List.map N_of_ascii (list_ascii_of_string s).

(** [str.isspace] on one character: the code points Unicode classes
    as white space (category Zs, or bidirectional class WS, B or S). *)
Definition isspace (c : char) : bool :=
  ((9 <=? c) && (c <=? 13))
  || ((28 <=? c) && (c <=? 32))
  || (c =? 133) || (c =? 160) || (c =? 5760)
  || ((8192 <=? c) && (c <=? 8202))
  || (c =? 8232) || (c =? 8233) || (c =? 8239) || (c =? 8287)
  || (c =? 12288).

(** [s.lstrip()], [s.rstrip()] and [s.strip()]: the leading white
    space goes first, then the trailing one. *)
Fixpoint lstrip (s : str) : str :=
  match s with
  | c :: s' => if isspace c then lstrip s' else s
  | [] => []
  end.

Definition rstrip (s : str) : str := rev (lstrip (rev s)).

Definition strip (s : str) : str := rstrip (lstrip s).

(** A string that neither starts nor ends with white space. *)
Definition trimmed (s : str) : Prop :=
  (forall c s', s = c :: s' -> isspace c = false) /\
  (forall c s', s = s' ++ [c] -> isspace c = false).

(** Lexicographic order on code points, the order of [<] on [str]. *)
Fixpoint str_ltb (a b : str) : bool :=
  match a, b with
  | _, [] => false
  | [], _ :: _ => true
  | x :: a', y :: b' => (x <? y) || ((x =? y) && str_ltb a' b')
  end.

(** The decimal digit [d] as a character, and a natural number in
    decimal, as [str(n)] writes it. *)
Definition digit (d : N) : char := 48 + d.

Fixpoint str_of_uint (d : Decimal.uint) : str :=
  match d with
  | Decimal.Nil => []
  | Decimal.D0 d' => digit 0 :: str_of_uint d'
  | Decimal.D1 d' => digit 1 :: str_of_uint d'
  | Decimal.D2 d' => digit 2 :: str_of_uint d'
  | Decimal.D3 d' => digit 3 :: str_of_uint d'
  | Decimal.D4 d' => digit 4 :: str_of_uint d'
  | Decimal.D5 d' => digit 5 :: str_of_uint d'
  | Decimal.D6 d' => digit 6 :: str_of_uint d'
  | Decimal.D7 d' => digit 7 :: str_of_uint d'
  | Decimal.D8 d' => digit 8 :: str_of_uint d'
  | Decimal.D9 d' => digit 9 :: str_of_uint d'
  end.

Definition str_of_N (n : N) : str := str_of_uint (N.to_uint n).

Definition isdigit (c : char) : bool := (48 <=? c) && (c <=? 57).

End Str.
Import Str.

(* ================================================================== *)
(** ** Python floats and the format specification [.2f] *)
(* ================================================================== *)

Module Float.

(** The nearest integer to [num / den], a tie going to the even one. *)
Definition round_half_even (num den : N) : N :=
  let q := num / den in
  match 2 * (num mod den) ?= den with
  | Lt => q
  | Eq => if N.even q then q else q + 1
  | Gt => q + 1
  end.

(** The number of hundredths nearest to [m * 2^e], which is exact when
    [e] is not negative. *)
Definition hundredths (m : positive) (e : Z) : N :=
  match e with
  | Zneg p => round_half_even (100 * Npos m) (2 ^ Npos p)
  | _ => 100 * Npos m * 2 ^ Z.to_N e
  end.

(** [q] hundredths in fixed notation: the integer part, a point and
    two digits. *)
Definition fixed2 (q : N) : str :=
  str_of_N (q / 100) ++ py "." ++ [digit (q mod 100 / 10); digit (q mod 10)].

Definition sign (s : bool) : str := if s then py "-" else [].

(** [format(x, ".2f")], which is what [f"{x:.2f}"] inserts: the value
    of [x] rounded correctly to two decimals; [nan] and [inf] for the
    values that are not finite; the sign of a negative zero is kept. *)
Definition format_2f (x : float) : str :=
  match Prim2SF x with
  | S754_nan => py "nan"
  | S754_infinity s => sign s ++ py "inf"
  | S754_zero s => sign s ++ py "0.00"
  | S754_finite s m e => sign s ++ fixed2 (hundredths m e)
  end.

(** The float of a row count. *)
Definition of_nat (n : nat) : float := of_uint63 (Uint63.of_Z (Z.of_nat n)).

End Float.
Import Float.

(* ================================================================== *)
(** ** Exceptions, and computations that may raise *)
(* ================================================================== *)

Inductive exn := KeyError | AttributeError | TypeError | ValueError | NameError.

Inductive Result (A : Type) : Type :=
| Ok (a : A)
| Raise (e : exn).
Arguments Ok {A} a.
Arguments Raise {A} e.

Definition rbind {A B} (r : Result A) (k : A -> Result B) : Result B :=
  match r with
  | Ok a => k a
  | Raise e => Raise e
  end.

Notation "x <-? r ; k" := (rbind r (fun x => k))
  (at level 100, r at next level, right associativity, only parsing).

(** A call per element, from left to right, stopping at the first one
    that raises. *)
Fixpoint rmap {A B} (f : A -> Result B) (l : list A) : Result (list B) :=
  match l with
  | [] => Ok []
  | a :: l' => b <-? f a; bs <-? rmap f l'; Ok (b :: bs)
  end.

(* ================================================================== *)
(** ** pandas: Series and DataFrame *)
(* ================================================================== *)

(** A value read from a cell, or computed from a column. *)
Inductive value :=
| VStr (s : str)
| VFloat (x : float).

Module Series.

(** A column: [object] dtype holding strings, or [float64], where a
    missing entry is [nan]. *)
Inductive t :=
| Text (l : list str)
| Float64 (l : list float).

(** *** Reductions of a [float64] array, missing entries skipped *)

Definition count (xs : list float) : nat :=
  length (List.filter (fun x => negb (is_nan x)) xs).

Definition fill (v : float) (xs : list float) : list float :=
  List.map (fun x => if is_nan x then v else x) xs.

(** [ndarray.sum] is [np.add.reduce], which starts from the identity
    [0.0] and adds to it the pairwise sum of the array: fewer than
    eight entries are added from left to right starting from negative
    zero; up to 128 entries are added in eight interleaved partial sums,
    which are then added in pairs, and the entries past the last
    multiple of eight are added one by one; a longer array is split
    near its middle, at a multiple of eight, and the sums of the two
    parts are added.  [blocks k r xs] adds the next [k] groups of
    eight entries of [xs] to the eight partial sums [r]. *)
Fixpoint blocks (k : nat) (r xs : list float) : list float :=
  match k with
  | O => r
  | S k' => blocks k' (List.map (fun p => (fst p + snd p)%float)
                                (combine r (take 8 xs)))
                   (drop 8 xs)
  end.

Definition block_sum (xs : list float) : float :=
  let n := List.length xs in
  let r := blocks (n / 8 - 1)%nat (take 8 xs) (drop 8 xs) in
  let r_ k := nth k r 0%float in
  let res := (((r_ 0%nat + r_ 1%nat) + (r_ 2%nat + r_ 3%nat)) +
              ((r_ 4%nat + r_ 5%nat) + (r_ 6%nat + r_ 7%nat)))%float in
  fold_left PrimFloat.add (drop (n - n mod 8)%nat xs) res.

(** The recursion on the two parts of a long array, which are shorter
    than the array, is written with a bound on its depth; the length of
    the array is bound enough ([pairwise_sum_unfold] below). *)
Fixpoint pairwise_sum_upto (depth : nat) (xs : list float) : float :=
  let n := List.length xs in
  if Nat.ltb n 8 then fold_left PrimFloat.add xs (-0)%float
  else if Nat.leb n 128 then block_sum xs
  else match depth with
       | O => block_sum xs
       | S depth' =>
           let n2 := (n / 2 - (n / 2) mod 8)%nat in
           (pairwise_sum_upto depth' (take n2 xs)
            + pairwise_sum_upto depth' (drop n2 xs))%float
       end.

Definition pairwise_sum (xs : list float) : float :=
  pairwise_sum_upto (List.length xs) xs.

Definition sum (xs : list float) : float := (0 + pairwise_sum xs)%float.

(** [nanops.nanmean]: the missing entries count as zero in the sum and
    are left out of the count. *)
Definition nanmean (xs : list float) : float :=
  let n := count xs in
  if Nat.eqb n 0 then nan else (sum (fill 0 xs) / of_nat n)%float.

(** [nanops.nanvar], the variance with [ddof = 1], undefined below two
    entries. *)
Definition nanvar (xs : list float) : float :=
  let n := count xs in
  if Nat.leb n 1 then nan
  else
    let avg := (sum (fill 0 xs) / of_nat n)%float in
    let sqr := List.map (fun x => if is_nan x then 0%float
                                   else ((avg - x) * (avg - x))%float) xs in
    (sum sqr / of_nat (n - 1))%float.

Definition nanstd (xs : list float) : float := PrimFloat.sqrt (nanvar xs).

(** [np.maximum] and [np.minimum] as the reduction applies them to two
    entries that are not [nan]: the accumulator is kept when it is
    strictly better and the next entry is taken otherwise, so of two
    entries that compare equal, which only the two zeros do without
    being the same, the later one is returned.  (numpy reduces a long
    array in the lanes of a vector register, whose number depends on
    the machine; which of two zeros of opposite sign is then returned
    may differ from the one of this left-to-right reduction.  The
    value as a number does not.) *)
Definition maximum (acc x : float) : float := if (x <? acc)%float then acc else x.
Definition minimum (acc x : float) : float := if (acc <? x)%float then acc else x.

Definition reduce (f : float -> float -> float) (xs : list float) : float :=
  match xs with
  | [] => nan
  | x :: r => fold_left f r x
  end.

Definition nanmax (xs : list float) : float :=
  if Nat.eqb (count xs) 0 then nan
  else reduce maximum (fill neg_infinity xs).

Definition nanmin (xs : list float) : float :=
  if Nat.eqb (count xs) 0 then nan
  else reduce minimum (fill infinity xs).

(** [ndarray.argmax] and [ndarray.argmin] on an array without [nan]:
    the position moves only to a strictly better entry, so the first
    of equal extremes is kept.  [keep_max best x] tells that the
    position stays at [best] when [x] comes; [besti] is the position
    of [best] and [i] the position of the head of [xs]. *)
Definition keep_max (best x : float) : bool := (x <=? best)%float.
Definition keep_min (best x : float) : bool := (best <=? x)%float.

Fixpoint arg_from (keep : float -> float -> bool) (best : float)
    (besti i : nat) (xs : list float) : nat :=
  match xs with
  | [] => besti
  | x :: r => if keep best x then arg_from keep best besti (S i) r
              else arg_from keep x i (S i) r
  end.

Definition arg (keep : float -> float -> bool) (xs : list float) : nat :=
  match xs with
  | [] => O
  | x :: r => arg_from keep x 0 1 r
  end.

Definition argmax : list float -> nat := arg keep_max.
Definition argmin : list float -> nat := arg keep_min.

(** The entries that are not missing, each with its position; [i] is
    the position of the head of [xs]. *)
Fixpoint notna_from (i : nat) (xs : list float) : list (nat * float) :=
  match xs with
  | [] => []
  | x :: r => if is_nan x then notna_from (S i) r
              else (i, x) :: notna_from (S i) r
  end.

Definition notna (xs : list float) : list (nat * float) := notna_from 0 xs.

(** *** Reductions of an [object] array of strings *)

Definition str_max (a b : str) : str := if str_ltb a b then b else a.
Definition str_min (a b : str) : str := if str_ltb b a then b else a.

Definition reduce_str (f : str -> str -> str) (l : list str) : value :=
  match l with
  | [] => VFloat nan
  | x :: r => VStr (fold_left f r x)
  end.

(** *** The methods the module calls *)

(** [s.mean()] and [s.std()]; strings have no mean. *)
Definition mean (s : t) : Result float :=
  match s with
  | Float64 xs => Ok (nanmean xs)
  | Text _ => Raise TypeError
  end.

Definition std (s : t) : Result float :=
  match s with
  | Float64 xs => Ok (nanstd xs)
  | Text _ => Raise TypeError
  end.

(** [s.max()] and [s.min()]. *)
Definition max (s : t) : value :=
  match s with
  | Float64 xs => VFloat (nanmax xs)
  | Text l => reduce_str str_max l
  end.

Definition min (s : t) : value :=
  match s with
  | Float64 xs => VFloat (nanmin xs)
  | Text l => reduce_str str_min l
  end.

(** [s.idxmax()] and [s.idxmin()]: the label, here the position, of
    the first extreme among the entries that are not missing; they
    raise when there is no such entry. *)
Definition idxmax (s : t) : Result nat :=
  match s with
  | Float64 xs =>
      if Nat.eqb (count xs) 0 then Raise ValueError
      else
        let es := notna xs in
        Ok (nth (argmax (List.map snd es)) (List.map fst es) O)
  | Text _ => Raise TypeError
  end.

Definition idxmin (s : t) : Result nat :=
  match s with
  | Float64 xs =>
      if Nat.eqb (count xs) 0 then Raise ValueError
      else
        let es := notna xs in
        Ok (nth (argmin (List.map snd es)) (List.map fst es) O)
  | Text _ => Raise TypeError
  end.

(** [s.str.strip()]: the accessor exists on strings only. *)
Definition str_strip (s : t) : Result t :=
  match s with
  | Text l => Ok (Text (List.map strip l))
  | Float64 _ => Raise AttributeError
  end.

(** [s.apply(f)] for [f] from strings to strings. *)
Definition apply (f : str -> Result str) (s : t) : Result t :=
  match s with
  | Text l => l' <-? rmap f l; Ok (Text l')
  | Float64 _ => Raise TypeError
  end.

(** The entry at a position. *)
Definition at_ (s : t) (i : nat) : option value :=
  match s with
  | Text l => VStr <$> l !! i
  | Float64 l => VFloat <$> l !! i
  end.

Definition length (s : t) : nat :=
  match s with
  | Text l => List.length l
  | Float64 l => List.length l
  end.

End Series.

Module DataFrame.

Abbreviation t := (gmap (list N) Series.t).

(** [df[col]] *)
Definition getitem (df : t) (col : str) : Result Series.t :=
  match df !! col with
  | Some s => Ok s
  | None => Raise KeyError
  end.

(** [df[col] = s] *)
Definition setitem (df : t) (col : str) (s : Series.t) : t := <[col := s]> df.

(** [df.loc[i, col]] *)
Definition loc (df : t) (i : nat) (col : str) : Result value :=
  match df !! col with
  | Some s => match Series.at_ s i with
              | Some v => Ok v
              | None => Raise KeyError
              end
  | None => Raise KeyError
  end.

(** A frame of [n] rows: every column has [n] entries. *)
Definition rows (df : t) (n : nat) : Prop :=
  map_Forall (fun _ s => Series.length s = n) df.

End DataFrame.

(* ================================================================== *)
(** ** The collaborators outside the repository *)
(* ================================================================== *)

(** The package [us]: a record per state, of which the module reads the
    abbreviation. *)
Module us.

Record State := { name : str; abbr : str }.

(** The fifty states, [us.states.STATES].  The District of Columbia is
    not one of them. *)
Definition STATES : list State :=
  List.map (fun p => {| name := py (fst p); abbr := py (snd p) |})
  [ ("Alabama", "AL"); ("Alaska", "AK"); ("Arizona", "AZ"); ("Arkansas", "AR");
    ("California", "CA"); ("Colorado", "CO"); ("Connecticut", "CT");
    ("Delaware", "DE"); ("Florida", "FL"); ("Georgia", "GA"); ("Hawaii", "HI");
    ("Idaho", "ID"); ("Illinois", "IL"); ("Indiana", "IN"); ("Iowa", "IA");
    ("Kansas", "KS"); ("Kentucky", "KY"); ("Louisiana", "LA"); ("Maine", "ME");
    ("Maryland", "MD"); ("Massachusetts", "MA"); ("Michigan", "MI");
    ("Minnesota", "MN"); ("Mississippi", "MS"); ("Missouri", "MO");
    ("Montana", "MT"); ("Nebraska", "NE"); ("Nevada", "NV");
    ("New Hampshire", "NH"); ("New Jersey", "NJ"); ("New Mexico", "NM");
    ("New York", "NY"); ("North Carolina", "NC"); ("North Dakota", "ND");
    ("Ohio", "OH"); ("Oklahoma", "OK"); ("Oregon", "OR"); ("Pennsylvania", "PA");
    ("Rhode Island", "RI"); ("South Carolina", "SC"); ("South Dakota", "SD");
    ("Tennessee", "TN"); ("Texas", "TX"); ("Utah", "UT"); ("Vermont", "VT");
    ("Virginia", "VA"); ("Washington", "WA"); ("West Virginia", "WV");
    ("Wisconsin", "WI"); ("Wyoming", "WY") ]%string.

(** Modelled from the spec: the state-name directory service (the
    function [us.states.lookup], whose package is not part of the
    repository), queried by full name: the record whose canonical name
    is the query, and nothing when no name matches. *)
Definition lookup_by_name (val : str) : option State :=
  List.find (fun s => bool_decide (name s = val)) STATES.

(** What the module relies on, whatever else a directory resolves: a
    canonical full name resolves to the record of its state. *)
Definition resolves_names (lookup : str -> option State) : Prop :=
  forall s, In s STATES -> lookup (name s) = Some s.

End us.

(** The postal codes of the data model: the states and the District of
    Columbia, each name with its two-letter code. *)
Definition postal_codes : list (str * str) :=
  (py "District of Columbia", py "DC")
  :: List.map (fun s => (us.name s, us.abbr s)) us.STATES.

(** plotly express: the figure a call of [px.choropleth] describes. *)
Module px.

Record Figure := {
  locations : Series.t;
  locationmode : str;
  color : Series.t;
  scope : str;
  color_continuous_scale : list str;
  range_color : value * value;
  labels : list (str * str)
}.

(** [px.choropleth(df, locations=.., locationmode=.., color=.., scope=..,
    color_continuous_scale=.., range_color=.., labels=..)]: the two
    columns are read from the frame by name. *)
Definition choropleth (df : DataFrame.t) (locations locationmode color scope : str)
    (color_continuous_scale : list str) (range_color : value * value)
    (labels : list (str * str)) : Result Figure :=
  match df !! locations, df !! color with
  | Some l, Some c =>
      Ok {| locations := l; locationmode := locationmode; color := c;
            scope := scope; color_continuous_scale := color_continuous_scale;
            range_color := range_color; labels := labels |}
  | _, _ => Raise ValueError
  end.

End px.

(* ================================================================== *)
(** ** The module [analysis] *)
(* ================================================================== *)

(** The names bound in the module's namespace once it is imported: its
    two imports and its two functions. *)
Definition module_globals : list string :=
  ["px"; "us"; "choropleth"; "high_and_low"]%string.

Definition builtins : list string := ["print"]%string.

(** Reading a global name: the module's namespace, then the builtins. *)
Definition load_global (x : string) : Result unit :=
  if existsb (String.eqb x) (module_globals ++ builtins) then Ok tt
  else Raise NameError.

(** A row of the summary: the dictionary the loop appends. *)
Record SummaryRow := {
  Variable_ : str;
  Average_SD : str;
  Highest_State : str;
  Lowest_State : str
}.

(** What a procedure acts on: the caller's data set, the figures
    displayed and the tables printed. *)
Record State := {
  frame : DataFrame.t;
  shown : list px.Figure;
  stdout : list (list SummaryRow)
}.

Definition M (A : Type) : Type := State -> Result A * State.

Definition bind {A B} (m : M A) (k : A -> M B) : M B :=
  fun st =>
    match m st with
    | (Ok a, st') => k a st'
    | (Raise e, st') => (Raise e, st')
    end.

Notation "x <- m ;; k" := (bind m (fun x => k))
  (at level 100, m at next level, right associativity, only parsing).
Notation "m ;; k" := (bind m (fun _ => k))
  (at level 100, right associativity, only parsing).

Definition lift {A} (r : Result A) : M A := fun st => (r, st).

(** [df[col]] and [df[col] = s] on the caller's object. *)
Definition getitem (col : str) : M Series.t :=
  fun st => (DataFrame.getitem (frame st) col, st).

Definition setitem (col : str) (s : Series.t) : M unit :=
  fun st => (Ok tt, {| frame := DataFrame.setitem (frame st) col s;
                       shown := shown st; stdout := stdout st |}).

Definition get_frame : M DataFrame.t := fun st => (Ok (frame st), st).

(** [fig.show()] *)
Definition show (fig : px.Figure) : M unit :=
  fun st => (Ok tt, {| frame := frame st; shown := shown st ++ [fig];
                       stdout := stdout st |}).

(** [print(summary_df)] *)
Definition print (table : list SummaryRow) : M unit :=
  fun st => (Ok tt, {| frame := frame st; shown := shown st;
                       stdout := stdout st ++ [table] |}).

Definition States : str := py "States".
Definition Avg_PM25 : str := py "Avg_PM25".

Section Choropleth.

(** [us.states.lookup] *)
Variable lookup : str -> option us.State.

Definition get_abbr (name : str) : Result str :=
  if bool_decide (name = py "District of Columbia") then Ok (py "DC")
  else
    _ <-? load_global "us";
    match lookup name with
    | Some state => Ok (us.abbr state)
    | None => Raise AttributeError
    end.

Definition color_scale : list str :=
  [py "green"; py "yellow"; py "orange"; py "red"].

Definition choropleth : M unit :=
  s <- getitem States ;;
  s <- lift (Series.str_strip s) ;;
  setitem States s ;;
  s <- getitem States ;;
  s <- lift (Series.apply get_abbr s) ;;
  setitem States s ;;
  lift (load_global "px") ;;
  s <- getitem Avg_PM25 ;;
  let lo := Series.min s in
  s <- getitem Avg_PM25 ;;
  let hi := Series.max s in
  df <- get_frame ;;
  fig <- lift (px.choropleth df States (py "USA-states") Avg_PM25 (py "usa")
                 color_scale (lo, hi) [(Avg_PM25, py "Average PM2.5")]) ;;
  show fig.

End Choropleth.

Definition columns_to_summarize : list str :=
  [ py "Not_graduated"; py "HDI"; py "Health_Index";
    py "Education_Index"; py "Income_Index";
    py "Homeless_Ratio"; py "Unsheltered_Homeless"; py "Avg_PM25" ].

(** The sign between the average and the deviation, U+00B1. *)
Definition plus_minus : str := [177].

Section HighAndLow.

(** [str(x)] for a float [x], which [f"{x}"] inserts. *)
Variable float_str : float -> str.

(** [f"{v}"] and [f"{v:.2f}"] *)
Definition format_ (v : value) : str :=
  match v with
  | VStr s => s
  | VFloat x => float_str x
  end.

Definition format_spec_2f (v : value) : Result str :=
  match v with
  | VFloat x => Ok (format_2f x)
  | VStr _ => Raise ValueError
  end.

(** The body of the loop, for the column [col]: the row appended to
    [summary]. *)
Definition summarize (df : DataFrame.t) (col : str) : Result SummaryRow :=
  s <-? DataFrame.getitem df col; mean_val <-? Series.mean s;
  s <-? DataFrame.getitem df col; std_val <-? Series.std s;
  s <-? DataFrame.getitem df col; let max_val := Series.max s in
  s <-? DataFrame.getitem df col; let min_val := Series.min s in
  s <-? DataFrame.getitem df col; i <-? Series.idxmax s;
  state_max <-? DataFrame.loc df i States;
  s <-? DataFrame.getitem df col; i <-? Series.idxmin s;
  state_min <-? DataFrame.loc df i States;
  max_2f <-? format_spec_2f max_val;
  min_2f <-? format_spec_2f min_val;
  Ok {| Variable_ := col;
        Average_SD := format_2f mean_val ++ py " " ++ plus_minus ++ py " "
                        ++ format_2f std_val;
        Highest_State := format_ state_max ++ py " (" ++ max_2f ++ py ")";
        Lowest_State := format_ state_min ++ py " (" ++ min_2f ++ py ")" |}.

(** The loop: [summary] once every column is done. *)
Definition summary (df : DataFrame.t) : Result (list SummaryRow) :=
  rmap (summarize df) columns_to_summarize.

Definition high_and_low : M unit :=
  df <- get_frame ;;
  summary <- lift (summary df) ;;
  lift (load_global "pd") ;;
  let summary_df := summary in
  lift (load_global "print") ;;
  print summary_df.

End HighAndLow.


(* ================================================================== *)
(** ** Notions the statements use *)
(* ================================================================== *)

(** [s] writes a number with exactly two decimal places: at least one
    digit, a point and two digits, after a minus sign or none. *)
Definition unsigned_two_decimals (s : list N) : bool :=
  match rev s with
  | d2 :: d1 :: 46 :: ds =>
      isdigit d1 && isdigit d2 && negb (Nat.eqb (length ds) 0) && forallb isdigit ds
  | _ => false
  end.

Definition two_decimals (s : list N) : bool :=
  match s with
  | c :: r => if c =? 45 then unsigned_two_decimals r else unsigned_two_decimals s
  | [] => false
  end.

(** Every number of the row [r] is written with two decimal places:
    the two joined by the sign in the average field, and the one in
    parentheses in each of the state fields. *)
Definition fields_two_decimals (r : SummaryRow) : Prop :=
  (exists a b, Average_SD r = a ++ py " " ++ plus_minus ++ py " " ++ b /\
               two_decimals a = true /\ two_decimals b = true) /\
  (exists s v, Highest_State r = s ++ py " (" ++ v ++ py ")" /\
               two_decimals v = true) /\
  (exists s v, Lowest_State r = s ++ py " (" ++ v ++ py ")" /\
               two_decimals v = true).

(** [q] is an integer nearest to [100 * m * 2^e]. *)
Definition nearest_hundredths (m : positive) (e : Z) (q : N) : Prop :=
  match e with
  | Zneg p => 2 * q * 2 ^ Npos p <= 200 * Npos m + 2 ^ Npos p /\
              200 * Npos m <= 2 * q * 2 ^ Npos p + 2 ^ Npos p
  | _ => q = 100 * Npos m * 2 ^ Z.to_N e
  end.

(** The order of two floats read off their class, exponent and
    mantissa, which is how [SFcompare] compares them. *)
Definition key (x : spec_float) : Z * Z * Z :=
  match x with
  | S754_nan => (0, 0, 0)%Z
  | S754_zero _ => (0, 0, 0)%Z
  | S754_infinity s => ((if s then -2 else 2), 0, 0)%Z
  | S754_finite s m e => if s then (-1, - e, - Zpos m)%Z else (1, e, Zpos m)%Z
  end.

Definition lex (a b : Z * Z * Z) : comparison :=
  let '(a1, a2, a3) := a in
  let '(b1, b2, b3) := b in
  match (a1 ?= b1)%Z with
  | Eq => match (a2 ?= b2)%Z with
          | Eq => (a3 ?= b3)%Z
          | c => c
          end
  | c => c
  end.

Definition lex_le (a b : Z * Z * Z) : Prop :=
  let '(a1, a2, a3) := a in
  let '(b1, b2, b3) := b in
  (a1 < b1 \/ (a1 = b1 /\ (a2 < b2 \/ (a2 = b2 /\ a3 <= b3))))%Z.

(** A column of numbers: no entry is missing. *)
Definition numeric (xs : list float) : Prop :=
  Forall (fun x => is_nan x = false) xs.

(** The entry at [i] is an extreme of [xs] for [keep], and the first
    one: no entry is better, and every entry before it is worse. *)
Definition first_extreme (keep : float -> float -> bool) (xs : list float)
    (i : nat) (x : float) : Prop :=
  xs !! i = Some x /\
  (forall j y, xs !! j = Some y -> keep x y = true) /\
  (forall j y, (j < i)%nat -> xs !! j = Some y -> keep y x = false).

(** [m] is a greatest entry of [xs], the missing ones apart: an entry
    that is a number and that no number of [xs] exceeds.  Likewise a
    least entry.  A column that holds the two zeros has two greatest
    entries when zero is its maximum. *)
Definition greatest (xs : list float) (m : float) : Prop :=
  In m xs /\ is_nan m = false /\
  forall y, In y xs -> is_nan y = false -> (y <=? m)%float = true.

Definition least (xs : list float) (m : float) : Prop :=
  In m xs /\ is_nan m = false /\
  forall y, In y xs -> is_nan y = false -> (m <=? y)%float = true.

(** A frame from its columns, and the state of a run that starts with
    nothing displayed and nothing printed. *)
Definition frame_of (cols : list (string * Series.t)) : DataFrame.t :=
  list_to_map (List.map (fun p => (py (fst p), snd p)) cols).

Definition initially (df : DataFrame.t) : State :=
  {| frame := df; shown := []; stdout := [] |}.

(** The data sets of the scenarios. *)
Definition two_states : DataFrame.t :=
  frame_of [ ("States", Series.Text [py "California"; py "Texas"]);
             ("Avg_PM25", Series.Float64 [10.0; 20.0]%float) ]%string.

Definition with_atlantis : DataFrame.t :=
  frame_of [ ("States", Series.Text [py " California"; py "Atlantis  "; py "Texas"]);
             ("Avg_PM25", Series.Float64 [10.0; 15.0; 20.0]%float) ]%string.

Definition ca_tx : DataFrame.t :=
  frame_of [ ("States", Series.Text [py "CA"; py "TX"]);
             ("Not_graduated", Series.Float64 [15.8; 14.9]%float);
             ("HDI", Series.Float64 [0.9; 0.8]%float);
             ("Health_Index", Series.Float64 [0.95; 0.91]%float);
             ("Education_Index", Series.Float64 [0.88; 0.86]%float);
             ("Income_Index", Series.Float64 [0.97; 0.95]%float);
             ("Homeless_Ratio", Series.Float64 [43.7; 9.4]%float);
             ("Unsheltered_Homeless", Series.Float64 [67.3; 47.2]%float);
             ("Avg_PM25", Series.Float64 [10.0; 20.0]%float) ]%string.

Definition one_row : DataFrame.t :=
  frame_of [ ("States", Series.Text [py "Ohio"]);
             ("Not_graduated", Series.Float64 [9.2]%float);
             ("HDI", Series.Float64 [12.3]%float);
             ("Health_Index", Series.Float64 [0.9]%float);
             ("Education_Index", Series.Float64 [0.88]%float);
             ("Income_Index", Series.Float64 [0.95]%float);
             ("Homeless_Ratio", Series.Float64 [9.7]%float);
             ("Unsheltered_Homeless", Series.Float64 [20.1]%float);
             ("Avg_PM25", Series.Float64 [8.4]%float) ]%string.

Definition tied : DataFrame.t :=
  frame_of [ ("States", Series.Text [py "Iowa"; py "Ohio"; py "Utah"; py "Maine"]);
             ("Not_graduated", Series.Float64 [7.5; 9.2; 7.5; 6.1]%float);
             ("HDI", Series.Float64 [0.5; 0.9; 0.9; 0.5]%float);
             ("Health_Index", Series.Float64 [0.9; 0.9; 0.9; 0.9]%float);
             ("Education_Index", Series.Float64 [0.88; 0.86; 0.88; 0.86]%float);
             ("Income_Index", Series.Float64 [0.91; 0.95; 0.93; 0.95]%float);
             ("Homeless_Ratio", Series.Float64 [8.1; 9.7; 11.0; 31.9]%float);
             ("Unsheltered_Homeless", Series.Float64 [20.1; 20.1; 12.4; 3.8]%float);
             ("Avg_PM25", Series.Float64 [8.4; 8.4; 7.9; 7.9]%float) ]%string.

(** Two rows that hold the two zeros, and one row that holds negative
    zero. *)
Definition two_zeros : DataFrame.t :=
  <[py "HDI" := Series.Float64 [0; -0]%float]>
    (<[States := Series.Text [py "Iowa"; py "Ohio"]]> ca_tx).

Definition one_negative_zero : DataFrame.t :=
  <[py "HDI" := Series.Float64 [-0]%float]> one_row.

(** The state after the first assignment, and the figure that is
    displayed when every name resolves. *)
Definition trimmed_state (st : State) (names : list (list N)) : State :=
  {| frame := <[States := Series.Text (List.map strip names)]> (frame st);
     shown := shown st; stdout := stdout st |}.

Definition figure (abbrs : list (list N)) (pm25 : Series.t) : px.Figure :=
  {| px.locations := Series.Text abbrs;
     px.locationmode := py "USA-states";
     px.color := pm25;
     px.scope := py "usa";
     px.color_continuous_scale := color_scale;
     px.range_color := (Series.min pm25, Series.max pm25);
     px.labels := [(Avg_PM25, py "Average PM2.5")] |}.

(** The state [st] with its [States] column replaced. *)
Definition with_States (st : State) (names : list (list N)) : State :=
  {| frame := <[States := Series.Text names]> (frame st);
     shown := shown st; stdout := stdout st |}.

(** More data sets: names with white space around them, a data set
    without the colour column, one without rows, one with the District
    of Columbia, and the two states under their full names with all
    the columns. *)
Definition padded_names : list (list N) :=
  [[32; 9] ++ py "California" ++ [160]; py "Texas" ++ [10; 12288]].

Definition only_States : DataFrame.t :=
  frame_of [ ("States", Series.Text [py "Ohio "; py " Utah"]) ]%string.

Definition no_rows : DataFrame.t :=
  frame_of [ ("States", Series.Text []);
             ("Not_graduated", Series.Float64 []);
             ("HDI", Series.Float64 []);
             ("Health_Index", Series.Float64 []);
             ("Education_Index", Series.Float64 []);
             ("Income_Index", Series.Float64 []);
             ("Homeless_Ratio", Series.Float64 []);
             ("Unsheltered_Homeless", Series.Float64 []);
             ("Avg_PM25", Series.Float64 []) ]%string.

Definition with_DC : DataFrame.t :=
  frame_of [ ("States", Series.Text [py "Ohio"; py " District of Columbia"]);
             ("Avg_PM25", Series.Float64 [8.4; 9.1]%float) ]%string.

Definition california_texas : DataFrame.t :=
  <[States := Series.Text [py " California"; py "Texas "]]> ca_tx.

(** The two states without the HDI column, and without the [States]
    column. *)
Definition ca_tx_without_HDI : DataFrame.t := delete (py "HDI") ca_tx.

Definition ca_tx_without_States : DataFrame.t := delete States ca_tx.

(** A stand-in for [str] on floats where no float is ever written. *)
Definition no_float_str (x : float) : list N := [].

(* ================================================================== *)
(** ** Trimming *)
(* ================================================================== *)

Section StripFacts.

Lemma lstrip_head (s : list N) c t : lstrip s = c :: t -> isspace c = false.
Proof.
  induction s as [|a s IH]; simpl; [discriminate|].
  destruct (isspace a) eqn:Ha; [exact IH|].
  intros [= <- _]. exact Ha.
Qed.

Lemma lstrip_fixed c (t : list N) : isspace c = false -> lstrip (c :: t) = c :: t.
Proof. intros H. simpl. now rewrite H. Qed.

Lemma lstrip_idem (s : list N) : lstrip (lstrip s) = lstrip s.
Proof.
  destruct (lstrip s) as [|c t] eqn:E; [reflexivity|].
  apply lstrip_fixed. exact (lstrip_head _ _ _ E).
Qed.

Lemma lstrip_snoc (l : list N) c :
  isspace c = false -> lstrip (l ++ [c]) = lstrip l ++ [c].
Proof.
  intros Hc. induction l as [|a l IH]; simpl.
  - now rewrite Hc.
  - destruct (isspace a); [exact IH|reflexivity].
Qed.

Lemma rstrip_cons c (t : list N) :
  isspace c = false -> rstrip (c :: t) = c :: rstrip t.
Proof.
  intros Hc. unfold rstrip. simpl rev.
  rewrite (lstrip_snoc _ _ Hc), rev_app_distr. reflexivity.
Qed.

Lemma rstrip_last (s : list N) t c : rstrip s = t ++ [c] -> isspace c = false.
Proof.
  unfold rstrip. intros H.
  apply (f_equal (@rev N)) in H. rewrite rev_involutive, rev_app_distr in H.
  simpl in H. exact (lstrip_head _ _ _ H).
Qed.

Lemma strip_cases (s : list N) :
  strip s = [] \/ exists c t, isspace c = false /\ strip s = c :: rstrip t.
Proof.
  unfold strip. destruct (lstrip s) as [|c t] eqn:E.
  - left. reflexivity.
  - right. exists c, t. pose proof (lstrip_head _ _ _ E) as Hc.
    split; [exact Hc|]. now apply rstrip_cons.
Qed.

(** What [strip] returns neither starts nor ends with white space. *)
Lemma strip_trimmed (s : list N) : trimmed (strip s).
Proof.
  split.
  - intros c t E. destruct (strip_cases s) as [H|(c' & t' & Hc & H)];
      rewrite H in E; [discriminate|]. now injection E as <- _.
  - intros c t E. unfold strip in E. exact (rstrip_last _ _ _ E).
Qed.

(** A string that is trimmed is left as it is. *)
Lemma strip_of_trimmed (s : list N) : trimmed s -> strip s = s.
Proof.
  intros [Hl Hr]. unfold strip.
  assert (El : lstrip s = s).
  { destruct s as [|c t]; [reflexivity|]. apply lstrip_fixed. now apply (Hl c t). }
  rewrite El. unfold rstrip.
  assert (Er : lstrip (rev s) = rev s).
  { destruct (rev s) as [|c t] eqn:E; [reflexivity|]. apply lstrip_fixed.
    apply (Hr c (rev t)). rewrite <- (rev_involutive s), E. reflexivity. }
  now rewrite Er, rev_involutive.
Qed.

End StripFacts.

(** C10. Trimming white space is idempotent: trimming a value of the
    [States] column that has been trimmed gives the same value, and a
    value with no white space at either end is left as it is. *)
Theorem strip_idempotent :
  (forall s : list N, strip (strip s) = strip s) /\
  (forall s : list N, strip s = s <-> trimmed s).
Proof.
  split.
  - intros s. apply strip_of_trimmed, strip_trimmed.
  - intros s. split.
    + intros E. rewrite <- E. apply strip_trimmed.
    + apply strip_of_trimmed.
Qed.

(* ================================================================== *)
(** ** Calls in sequence *)
(* ================================================================== *)

Section ResultFacts.

(** [rmap] succeeds exactly when every call does, and raises what the
    first failing call raises. *)
Lemma rmap_Ok_iff {A B} (f : A -> Result B) l l' :
  rmap f l = Ok l' <-> Forall2 (fun a b => f a = Ok b) l l'.
Proof.
  revert l'. induction l as [|a l IH]; intros l'; simpl.
  - split.
    + intros [= <-]. constructor.
    + intros H. inversion H. reflexivity.
  - split.
    + destruct (f a) as [b|e] eqn:Ea; [|discriminate]. cbn [rbind].
      destruct (rmap f l) as [bs|e] eqn:El; [|discriminate]. cbn [rbind].
      intros [= <-]. constructor; [exact Ea|]. now apply IH.
    + intros H. inversion H as [|? b ? bs Hb Hbs]; subst.
      rewrite Hb. cbn [rbind]. apply IH in Hbs. rewrite Hbs. reflexivity.
Qed.

Lemma rmap_Raise_one {A B} (f : A -> Result B) l e0 :
  (forall a e, f a = Raise e -> e = e0) ->
  (exists a, In a l /\ f a = Raise e0) ->
  rmap f l = Raise e0.
Proof.
  intros Hone. induction l as [|a l IH]; intros (a0 & Hin & Ha0); [destruct Hin|].
  simpl. destruct (f a) as [b|e] eqn:Ea.
  - cbn [rbind]. destruct Hin as [->|Hin]; [congruence|].
    rewrite IH by eauto. reflexivity.
  - cbn [rbind]. now rewrite (Hone _ _ Ea).
Qed.

Lemma Forall2_map_l {A B C} (P : B -> C -> Prop) (f : A -> B) l k :
  Forall2 P (List.map f l) k -> Forall2 (fun a c => P (f a) c) l k.
Proof.
  revert k. induction l as [|a l IH]; intros k H; inversion H; subst;
    constructor; auto.
Qed.

End ResultFacts.

(* ================================================================== *)
(** ** Facts about floats *)
(* ================================================================== *)

Section FloatFacts.

Lemma SFcompare_key x y :
  x <> S754_nan -> y <> S754_nan -> SFcompare x y = Some (lex (key x) (key y)).
Proof.
  intros Hx Hy.
  destruct x as [sx|sx| |sx mx ex], y as [sy|sy| |sy my ey]; try congruence;
    try (destruct sx; reflexivity); try (destruct sy; reflexivity);
    try (destruct sx, sy; reflexivity).
  destruct sx, sy; simpl; try reflexivity.
  - f_equal.
    destruct (Z.compare_spec ex ey), (Z.compare_spec (- ex) (- ey));
      try reflexivity; lia.
Qed.

Lemma lex_le_iff a b : lex a b <> Gt <-> lex_le a b.
Proof.
  destruct a as [[a1 a2] a3], b as [[b1 b2] b3]. simpl.
  destruct (Z.compare_spec a1 b1), (Z.compare_spec a2 b2), (Z.compare_spec a3 b3);
    split; intros; try congruence; try lia.
Qed.



Lemma is_nan_Prim2SF x : is_nan x = true <-> Prim2SF x = S754_nan.
Proof.
  unfold is_nan. rewrite FloatAxioms.eqb_spec. unfold SFeqb.
  destruct (Prim2SF x) as [s|s| |s m e] eqn:E; simpl.
  - split; discriminate.
  - destruct s; split; discriminate.
  - split; reflexivity.
  - rewrite Z.compare_refl.
    change (Pos.compare_cont Eq m m) with (m ?= m)%positive.
    rewrite Pos.compare_refl. destruct s; split; discriminate.
Qed.

Lemma not_nan_Prim2SF x : is_nan x = false <-> Prim2SF x <> S754_nan.
Proof.
  rewrite <- is_nan_Prim2SF. destruct (is_nan x); split; congruence.
Qed.

Lemma leb_true_iff x y :
  (x <=? y)%float = true <->
  is_nan x = false /\ is_nan y = false /\ lex_le (key (Prim2SF x)) (key (Prim2SF y)).
Proof.
  rewrite FloatAxioms.leb_spec. unfold SFleb. rewrite !not_nan_Prim2SF.
  destruct (Prim2SF x) as [sx|sx| |sx mx ex] eqn:Ex.
  all: destruct (Prim2SF y) as [sy|sy| |sy my ey] eqn:Ey.
  all: try (simpl; split; [discriminate | intros (H1 & H2 & _); congruence]).
  all: rewrite SFcompare_key by discriminate.
  all: rewrite <- lex_le_iff.
  all: destruct (lex _ _); split; try discriminate; try congruence;
       try (intros _; repeat split; discriminate);
       intros (_ & _ & H); congruence.
Qed.

Lemma lex_le_refl a : lex_le a a.
Proof. destruct a as [[a1 a2] a3]. simpl. lia. Qed.

Lemma lex_le_trans a b c : lex_le a b -> lex_le b c -> lex_le a c.
Proof. destruct a as [[a1 a2] a3], b as [[b1 b2] b3], c as [[c1 c2] c3]. simpl. lia. Qed.

Lemma lex_le_total a b : lex_le a b \/ lex_le b a.
Proof. destruct a as [[a1 a2] a3], b as [[b1 b2] b3]. simpl. lia. Qed.

Lemma leb_refl x : is_nan x = false -> (x <=? x)%float = true.
Proof. intros H. apply leb_true_iff. repeat split; auto using lex_le_refl. Qed.

Lemma leb_trans x y z :
  (x <=? y)%float = true -> (y <=? z)%float = true -> (x <=? z)%float = true.
Proof.
  rewrite !leb_true_iff. intros (Hx & _ & H1) (_ & Hz & H2).
  repeat split; eauto using lex_le_trans.
Qed.

Lemma leb_total x y :
  is_nan x = false -> is_nan y = false ->
  (x <=? y)%float = false -> (y <=? x)%float = true.
Proof.
  intros Hx Hy H. apply leb_true_iff. repeat split; auto.
  destruct (lex_le_total (key (Prim2SF x)) (key (Prim2SF y))) as [L|L]; [|exact L].
  assert ((x <=? y)%float = true) by (apply leb_true_iff; auto). congruence.
Qed.

Lemma lex_lt_le a b : lex a b = Lt -> lex_le a b.
Proof. intros H. apply lex_le_iff. congruence. Qed.

Lemma lex_not_lt a b : lex a b <> Lt -> lex_le b a.
Proof.
  destruct a as [[a1 a2] a3], b as [[b1 b2] b3]. simpl.
  destruct (Z.compare_spec a1 b1), (Z.compare_spec a2 b2), (Z.compare_spec a3 b3);
    intros; try congruence; lia.
Qed.

Lemma lex_le_antisym a b : lex_le a b -> lex_le b a -> lex a b = Eq.
Proof.
  destruct a as [[a1 a2] a3], b as [[b1 b2] b3]. simpl.
  destruct (Z.compare_spec a1 b1), (Z.compare_spec a2 b2), (Z.compare_spec a3 b3);
    intros; try reflexivity; lia.
Qed.

Lemma ltb_true_iff x y :
  (x <? y)%float = true <->
  is_nan x = false /\ is_nan y = false /\
  lex (key (Prim2SF x)) (key (Prim2SF y)) = Lt.
Proof.
  rewrite FloatAxioms.ltb_spec. unfold SFltb. rewrite !not_nan_Prim2SF.
  destruct (Prim2SF x) as [sx|sx| |sx mx ex] eqn:Ex.
  all: destruct (Prim2SF y) as [sy|sy| |sy my ey] eqn:Ey.
  all: try (simpl; split; [discriminate | intros (H1 & H2 & _); congruence]).
  all: rewrite SFcompare_key by discriminate.
  all: destruct (lex _ _); split; try discriminate; try congruence;
       try (intros _; repeat split; (discriminate || reflexivity));
       intros (_ & _ & H); congruence.
Qed.

Lemma eqb_true_iff x y :
  (x =? y)%float = true <->
  is_nan x = false /\ is_nan y = false /\
  lex (key (Prim2SF x)) (key (Prim2SF y)) = Eq.
Proof.
  rewrite FloatAxioms.eqb_spec. unfold SFeqb. rewrite !not_nan_Prim2SF.
  destruct (Prim2SF x) as [sx|sx| |sx mx ex] eqn:Ex.
  all: destruct (Prim2SF y) as [sy|sy| |sy my ey] eqn:Ey.
  all: try (simpl; split; [discriminate | intros (H1 & H2 & _); congruence]).
  all: rewrite SFcompare_key by discriminate.
  all: destruct (lex _ _); split; try discriminate; try congruence;
       try (intros _; repeat split; (discriminate || reflexivity));
       intros (_ & _ & H); congruence.
Qed.

(** Strictly less is less or equal; not strictly less is greater or
    equal; and two floats each less or equal to the other are equal as
    numbers. *)
Lemma ltb_leb x y : (x <? y)%float = true -> (x <=? y)%float = true.
Proof.
  rewrite ltb_true_iff, leb_true_iff. intros (Hx & Hy & H).
  auto using lex_lt_le.
Qed.

Lemma ltb_false_leb x y :
  is_nan x = false -> is_nan y = false ->
  (x <? y)%float = false -> (y <=? x)%float = true.
Proof.
  intros Hx Hy H. apply leb_true_iff. repeat split; auto.
  apply lex_not_lt. intros L.
  assert ((x <? y)%float = true) by (apply ltb_true_iff; auto). congruence.
Qed.

Lemma leb_antisym x y :
  (x <=? y)%float = true -> (y <=? x)%float = true -> (x =? y)%float = true.
Proof.
  rewrite !leb_true_iff, eqb_true_iff. intros (Hx & Hy & H1) (_ & _ & H2).
  auto using lex_le_antisym.
Qed.

Lemma eqb_refl x : is_nan x = false -> (x =? x)%float = true.
Proof. intros H. apply leb_antisym; now apply leb_refl. Qed.

Lemma eqb_leb x y : (x =? y)%float = true -> (x <=? y)%float = true.
Proof.
  rewrite eqb_true_iff, leb_true_iff. intros (Hx & Hy & H).
  repeat split; auto. apply lex_le_iff. congruence.
Qed.

Lemma eqb_sym x y : (x =? y)%float = true -> (y =? x)%float = true.
Proof.
  intros H. pose proof (eqb_leb _ _ H) as H1.
  apply eqb_true_iff in H as (Hx & Hy & H).
  apply leb_antisym; [|exact H1].
  apply leb_true_iff. repeat split; auto. apply lex_not_lt. congruence.
Qed.

Lemma lex_Eq a b : lex a b = Eq -> a = b.
Proof.
  destruct a as [[a1 a2] a3], b as [[b1 b2] b3]. simpl.
  destruct (Z.compare_spec a1 b1), (Z.compare_spec a2 b2), (Z.compare_spec a3 b3);
    intros; try discriminate; subst; reflexivity.
Qed.

(** Nothing is below negative infinity or above infinity but
    themselves. *)
Lemma leb_neg_infinity x : (x <=? neg_infinity)%float = true -> x = neg_infinity.
Proof.
  rewrite leb_true_iff. intros (Hx & _ & H). apply not_nan_Prim2SF in Hx.
  apply Prim2SF_inj. change (Prim2SF neg_infinity) with (S754_infinity true) in *.
  destruct (Prim2SF x) as [s|[|]| |[|] m e]; try congruence; simpl in H; lia.
Qed.

Lemma infinity_leb x : (infinity <=? x)%float = true -> x = infinity.
Proof.
  rewrite leb_true_iff. intros (_ & Hx & H). apply not_nan_Prim2SF in Hx.
  apply Prim2SF_inj. change (Prim2SF infinity) with (S754_infinity false) in *.
  destruct (Prim2SF x) as [s|[|]| |[|] m e]; try congruence; simpl in H; lia.
Qed.

Local Open Scope Z_scope.

Lemma div_eucl_exact a b q : 0 < b -> a = q * b -> Z.div_eucl a b = (q, 0).
Proof.
  intros Hb ->.
  assert (E : Z.div_eucl (q * b) b = ((q * b) / b, (q * b) mod b)).
  { unfold Z.div, Z.modulo. now destruct (Z.div_eucl (q * b) b). }
  rewrite E, Z.div_mul, Z.mod_mul by lia. reflexivity.
Qed.

Lemma SFdiv_one s m e :
  bounded prec emax m e = true ->
  SFdiv prec emax (S754_finite s m e) (S754_finite false 4503599627370496 (-52))
  = S754_finite s m e.
Proof.
  unfold bounded, canonical_mantissa, fexp.
  change (SpecFloat.emin prec emax) with (-1074).
  change prec with 53. change emax with 1024.
  intros H. apply andb_true_iff in H as [Hc He].
  apply Z.eqb_eq in Hc. apply Z.leb_le in He.
  unfold SFdiv, SFdiv_core_binary, fexp.
  change (SpecFloat.emin 53 1024) with (-1074).
  change (Zdigits2 (Z.pos m)) with (Z.pos (digits2_pos m)).
  change (Zdigits2 4503599627370496) with 53.
  rewrite xorb_false_r.
  set (d := Z.pos (digits2_pos m)) in *.
  assert (Hcase : (d = 53 /\ -1074 < e) \/ (e = -1074 /\ d <= 53)) by lia.
  destruct Hcase as [[Hd Hgt]|[He' Hd]].
  - replace (Z.min (Z.max (d + e - (53 + -52) - 53) (-1074)) (e - -52)) with (e - 1) by lia.
    replace (e - -52 - (e - 1)) with 53 by lia.
    rewrite (div_eucl_exact _ _ (Z.pos m~0)); [|lia|rewrite Z.shiftl_mul_pow2 by lia; lia].
    change (new_location 4503599627370496 0) with loc_Exact.
    unfold binary_round_aux, shr_fexp, fexp.
    change (SpecFloat.emin 53 1024) with (-1074).
    change (Zdigits2 (Z.pos m~0)) with (Z.pos (Pos.succ (digits2_pos m))).
    rewrite Pos2Z.inj_succ. fold d.
    replace (Z.max (Z.succ d + (e - 1) - 53) (-1074) - (e - 1)) with 1 by lia.
    cbn [shr shr_record_of_loc SpecFloat.iter_pos shr_1 orb shr_m loc_of_shr_record round_nearest_even].
    change (Zdigits2 (Z.pos m)) with d.
    replace (e - 1 + 1) with e by lia.
    replace (Z.max (d + e - 53) (-1074) - e) with 0 by lia.
    cbn [shr shr_m].
    destruct (Z.leb_spec e (1024 - 53)); [reflexivity|lia].
  - replace (Z.min (Z.max (d + e - (53 + -52) - 53) (-1074)) (e - -52)) with e by lia.
    replace (e - -52 - e) with 52 by lia.
    rewrite (div_eucl_exact _ _ (Z.pos m)); [|lia|rewrite Z.shiftl_mul_pow2 by lia; lia].
    change (new_location 4503599627370496 0) with loc_Exact.
    unfold binary_round_aux, shr_fexp, fexp.
    change (SpecFloat.emin 53 1024) with (-1074).
    change (Zdigits2 (Z.pos m)) with d.
    replace (Z.max (d + e - 53) (-1074) - e) with 0 by lia.
    cbn [shr shr_record_of_loc shr_m loc_of_shr_record round_nearest_even].
    change (Zdigits2 (Z.pos m)) with d.
    replace (Z.max (d + e - 53) (-1074) - e) with 0 by lia.
    cbn [shr shr_m].
    destruct (Z.leb_spec e (1024 - 53)); [reflexivity|lia].
Qed.

Lemma div_one x : (x / 1)%float = x.
Proof.
  apply Prim2SF_inj. rewrite FloatAxioms.div_spec.
  change (Prim2SF 1) with (S754_finite false 4503599627370496 (-52)).
  pose proof (Prim2SF_valid x) as V.
  destruct (Prim2SF x) as [s|s| |s m e]; simpl in V |- *.
  - now rewrite xorb_false_r.
  - now rewrite xorb_false_r.
  - reflexivity.
  - now apply SFdiv_one.
Qed.

Lemma add_neg_zero x : (-0 + x)%float = x.
Proof.
  apply Prim2SF_inj. rewrite FloatAxioms.add_spec.
  change (Prim2SF (-0)) with (S754_zero true).
  destruct (Prim2SF x) as [s|s| |s m e]; try reflexivity.
  destruct s; reflexivity.
Qed.

(** Adding to positive zero changes nothing but negative zero, which
    becomes positive. *)
Lemma neg_zero_Prim2SF x : Prim2SF x = S754_zero true <-> x = (-0)%float.
Proof.
  split; [|now intros ->].
  intros H. apply Prim2SF_inj. now rewrite H.
Qed.

(** Two floats that are equal as numbers are the same float, unless
    they are the two zeros. *)
Lemma eqb_same x y :
  (x =? y)%float = true -> x <> (-0)%float -> y <> (-0)%float -> x = y.
Proof.
  intros H Hx Hy. rewrite <- neg_zero_Prim2SF in Hx, Hy.
  apply eqb_true_iff in H as (Nx & Ny & L).
  apply not_nan_Prim2SF in Nx, Ny. apply lex_Eq in L. apply Prim2SF_inj.
  destruct (Prim2SF x) as [[|]|[|]| |[|] mx ex], (Prim2SF y) as [[|]|[|]| |[|] my ey];
    try congruence; simpl in L; try discriminate;
    injection L as L1 L2; f_equal; lia.
Qed.

Lemma add_zero x : x <> (-0)%float -> (0 + x)%float = x.
Proof.
  intros Hx. rewrite <- neg_zero_Prim2SF in Hx.
  apply Prim2SF_inj. rewrite FloatAxioms.add_spec.
  change (Prim2SF 0) with (S754_zero false).
  destruct (Prim2SF x) as [s|s| |s m e]; try reflexivity.
  destruct s; [congruence|reflexivity].
Qed.

Lemma add_zero_eqb x : is_nan x = false -> (0 + x =? x)%float = true.
Proof.
  intros Hx. destruct (Prim2SF x) as [[|]| | |] eqn:E.
  1: { apply neg_zero_Prim2SF in E. subst x. reflexivity. }
  all: rewrite add_zero; [now apply eqb_refl|].
  all: rewrite <- neg_zero_Prim2SF; congruence.
Qed.

End FloatFacts.

(* ================================================================== *)
(** ** The extremes of a column *)
(* ================================================================== *)

Section Extreme.

Variable keep : float -> float -> bool.
Hypothesis keep_refl : forall x, is_nan x = false -> keep x x = true.
Hypothesis keep_trans :
  forall x y z, keep x y = true -> keep y z = true -> keep x z = true.
Hypothesis keep_total :
  forall x y, is_nan x = false -> is_nan y = false ->
              keep x y = false -> keep y x = true.

Lemma first_extreme_snoc_keep pre besti best x :
  first_extreme keep pre besti best -> keep best x = true ->
  first_extreme keep (pre ++ [x]) besti best.
Proof.
  intros (Hat & Hall & Hbefore) Hk.
  pose proof (lookup_lt_Some _ _ _ Hat) as Hlt.
  split; [|split].
  - rewrite lookup_app_l by exact Hlt. exact Hat.
  - intros j y Hj. apply lookup_app_Some in Hj as [Hj|[_ Hj]].
    + exact (Hall _ _ Hj).
    + apply list_lookup_singleton_Some in Hj as [_ <-]. exact Hk.
  - intros j y Hji Hj. rewrite lookup_app_l in Hj by lia.
    exact (Hbefore _ _ Hji Hj).
Qed.

Lemma first_extreme_snoc_move pre besti best x :
  numeric (pre ++ [x]) ->
  first_extreme keep pre besti best -> keep best x = false ->
  first_extreme keep (pre ++ [x]) (length pre) x.
Proof.
  intros Hnum (Hat & Hall & _) Hk.
  unfold numeric in Hnum. rewrite Forall_app in Hnum. destruct Hnum as [Hpre Hx].
  apply Forall_inv in Hx.
  assert (Hbest : is_nan best = false).
  { rewrite Forall_lookup in Hpre. exact (Hpre _ _ Hat). }
  assert (Hxb : keep x best = true) by (apply keep_total; assumption).
  split; [|split].
  - rewrite lookup_app_r by lia. now rewrite Nat.sub_diag.
  - intros j y Hj. apply lookup_app_Some in Hj as [Hj|[_ Hj]].
    + exact (keep_trans _ _ _ Hxb (Hall _ _ Hj)).
    + apply list_lookup_singleton_Some in Hj as [_ <-]. now apply keep_refl.
  - intros j y Hji Hj. rewrite lookup_app_l in Hj by lia.
    destruct (keep y x) eqn:Hyx; [|reflexivity].
    pose proof (keep_trans _ _ _ (Hall _ _ Hj) Hyx). congruence.
Qed.

Lemma arg_from_spec r : forall pre best besti,
  numeric (pre ++ r) -> first_extreme keep pre besti best ->
  exists x, first_extreme keep (pre ++ r)
              (Series.arg_from keep best besti (length pre) r) x.
Proof.
  induction r as [|x r IH]; intros pre best besti Hnum Hfe.
  - rewrite app_nil_r. exists best. exact Hfe.
  - assert (Hnum' : numeric (pre ++ [x])).
    { unfold numeric in *. rewrite Forall_app in *. destruct Hnum as [Hp Hr].
      split; [exact Hp|]. apply Forall_singleton. now inversion Hr. }
    assert (Hlen : S (length pre) = length (pre ++ [x]))
      by (rewrite length_app; simpl; lia).
    replace (pre ++ x :: r) with ((pre ++ [x]) ++ r) in *
      by (now rewrite <- app_assoc).
    simpl. rewrite Hlen.
    destruct (keep best x) eqn:Hk.
    + apply IH; [exact Hnum|]. now apply first_extreme_snoc_keep.
    + apply IH; [exact Hnum|].
      apply (first_extreme_snoc_move _ besti best); assumption.
Qed.

Lemma arg_spec xs :
  xs <> [] -> numeric xs ->
  exists x, first_extreme keep xs (Series.arg keep xs) x.
Proof.
  destruct xs as [|x r]; [congruence|]. intros _ Hnum.
  apply (arg_from_spec r [x] x 0%nat Hnum).
  split; [reflexivity|]. split.
  - intros [|j] y Hj; simpl in Hj; [|now rewrite lookup_nil in Hj].
    injection Hj as <-. apply keep_refl. now inversion Hnum.
  - intros j y Hj. lia.
Qed.

(** A reduction by a function [f] that returns one of its two
    arguments, one that is no worse than the other: the result is an
    entry of the array, and no entry is better. *)
Variable f : float -> float -> float.
Hypothesis f_one : forall a x, f a x = a \/ f a x = x.
Hypothesis f_keep_l :
  forall a x, is_nan a = false -> is_nan x = false -> keep (f a x) a = true.
Hypothesis f_keep_r :
  forall a x, is_nan a = false -> is_nan x = false -> keep (f a x) x = true.

Lemma fold_extreme r : forall acc,
  is_nan acc = false -> numeric r ->
  (fold_left f r acc = acc \/ In (fold_left f r acc) r) /\
  keep (fold_left f r acc) acc = true /\
  (forall y, In y r -> keep (fold_left f r acc) y = true).
Proof.
  induction r as [|x r IH]; intros acc Hacc Hnum.
  - simpl. split; [now left|]. split; [now apply keep_refl|]. intros y [].
  - inversion Hnum as [|? ? Hx Hr]; subst. simpl.
    assert (Hf : is_nan (f acc x) = false) by (destruct (f_one acc x) as [->| ->]; assumption).
    destruct (IH (f acc x) Hf Hr) as (Hin & Hge & Hall).
    split; [|split].
    + destruct Hin as [E|Hin]; [|now right; right].
      rewrite E. destruct (f_one acc x) as [->| ->]; [now left|now right; left].
    + exact (keep_trans _ _ _ Hge (f_keep_l _ _ Hacc Hx)).
    + intros y [<-|Hy]; [|now apply Hall].
      exact (keep_trans _ _ _ Hge (f_keep_r _ _ Hacc Hx)).
Qed.

Lemma reduce_extreme xs :
  xs <> [] -> numeric xs ->
  In (Series.reduce f xs) xs /\
  (forall y, In y xs -> keep (Series.reduce f xs) y = true).
Proof.
  destruct xs as [|x r]; [congruence|]. intros _ Hnum.
  inversion Hnum as [|? ? Hx Hr]; subst. simpl.
  destruct (fold_extreme r x Hx Hr) as (Hin & Hge & Hall).
  split; [destruct Hin as [->|Hin]; [now left|now right]|].
  intros y [<-|Hy]; [exact Hge|now apply Hall].
Qed.

End Extreme.

Section ColumnFacts.

Lemma fill_numeric v xs : numeric xs -> Series.fill v xs = xs.
Proof.
  unfold Series.fill. induction 1 as [|x xs Hx _ IH]; simpl; [reflexivity|].
  now rewrite Hx, IH.
Qed.

Lemma count_numeric xs : numeric xs -> Series.count xs = length xs.
Proof.
  unfold Series.count. induction 1 as [|x xs Hx _ IH]; simpl; [reflexivity|].
  rewrite Hx. simpl. now rewrite IH.
Qed.

Lemma count_nonempty xs :
  xs <> [] -> numeric xs -> Nat.eqb (Series.count xs) 0 = false.
Proof.
  intros Hne Hnum. rewrite (count_numeric _ Hnum).
  destruct xs; [congruence|reflexivity].
Qed.

Lemma keep_max_refl x : is_nan x = false -> Series.keep_max x x = true.
Proof. apply leb_refl. Qed.

Lemma keep_max_trans x y z :
  Series.keep_max x y = true -> Series.keep_max y z = true ->
  Series.keep_max x z = true.
Proof. unfold Series.keep_max. intros H1 H2. exact (leb_trans _ _ _ H2 H1). Qed.

Lemma keep_max_total x y :
  is_nan x = false -> is_nan y = false ->
  Series.keep_max x y = false -> Series.keep_max y x = true.
Proof. unfold Series.keep_max. intros Hx Hy. now apply leb_total. Qed.

Lemma keep_min_refl x : is_nan x = false -> Series.keep_min x x = true.
Proof. apply leb_refl. Qed.

Lemma keep_min_trans x y z :
  Series.keep_min x y = true -> Series.keep_min y z = true ->
  Series.keep_min x z = true.
Proof. unfold Series.keep_min. apply leb_trans. Qed.

Lemma keep_min_total x y :
  is_nan x = false -> is_nan y = false ->
  Series.keep_min x y = false -> Series.keep_min y x = true.
Proof. unfold Series.keep_min. intros Hx Hy. now apply leb_total. Qed.

Lemma maximum_one a x : Series.maximum a x = a \/ Series.maximum a x = x.
Proof. unfold Series.maximum. destruct (x <? a)%float; auto. Qed.

Lemma maximum_keep_l a x :
  is_nan a = false -> is_nan x = false ->
  Series.keep_max (Series.maximum a x) a = true.
Proof.
  intros Ha Hx. unfold Series.keep_max, Series.maximum.
  destruct (x <? a)%float eqn:E; [now apply leb_refl|now apply ltb_false_leb].
Qed.

Lemma maximum_keep_r a x :
  is_nan a = false -> is_nan x = false ->
  Series.keep_max (Series.maximum a x) x = true.
Proof.
  intros Ha Hx. unfold Series.keep_max, Series.maximum.
  destruct (x <? a)%float eqn:E; [now apply ltb_leb|now apply leb_refl].
Qed.

Lemma minimum_one a x : Series.minimum a x = a \/ Series.minimum a x = x.
Proof. unfold Series.minimum. destruct (a <? x)%float; auto. Qed.

Lemma minimum_keep_l a x :
  is_nan a = false -> is_nan x = false ->
  Series.keep_min (Series.minimum a x) a = true.
Proof.
  intros Ha Hx. unfold Series.keep_min, Series.minimum.
  destruct (a <? x)%float eqn:E; [now apply leb_refl|now apply ltb_false_leb].
Qed.

Lemma minimum_keep_r a x :
  is_nan a = false -> is_nan x = false ->
  Series.keep_min (Series.minimum a x) x = true.
Proof.
  intros Ha Hx. unfold Series.keep_min, Series.minimum.
  destruct (a <? x)%float eqn:E; [now apply ltb_leb|now apply leb_refl].
Qed.

(** On a column of numbers that is not empty, [max] is an entry that
    no entry exceeds, and [min] one that exceeds no entry. *)
Lemma nanmax_spec xs :
  xs <> [] -> numeric xs ->
  In (Series.nanmax xs) xs /\
  (forall y, In y xs -> (y <=? Series.nanmax xs)%float = true).
Proof.
  intros Hne Hnum. unfold Series.nanmax.
  rewrite (count_nonempty _ Hne Hnum), (fill_numeric _ _ Hnum).
  apply (reduce_extreme Series.keep_max keep_max_refl keep_max_trans Series.maximum
           maximum_one maximum_keep_l maximum_keep_r xs Hne Hnum).
Qed.

Lemma nanmin_spec xs :
  xs <> [] -> numeric xs ->
  In (Series.nanmin xs) xs /\
  (forall y, In y xs -> (Series.nanmin xs <=? y)%float = true).
Proof.
  intros Hne Hnum. unfold Series.nanmin.
  rewrite (count_nonempty _ Hne Hnum), (fill_numeric _ _ Hnum).
  apply (reduce_extreme Series.keep_min keep_min_refl keep_min_trans Series.minimum
           minimum_one minimum_keep_l minimum_keep_r xs Hne Hnum).
Qed.

(** On a column that holds a number, [max] is a greatest entry and
    [min] a least one, whatever entries are missing. *)
Lemma count_In xs :
  Series.count xs <> 0%nat -> exists z, In z xs /\ is_nan z = false.
Proof.
  unfold Series.count. induction xs as [|x xs IH]; simpl; [congruence|].
  destruct (is_nan x) eqn:Hx; simpl.
  - intros H. destruct (IH H) as (z & Hz & Hn). eauto.
  - intros _. eauto.
Qed.

Lemma fill_is_numeric v xs : is_nan v = false -> numeric (Series.fill v xs).
Proof.
  intros Hv. unfold numeric, Series.fill. apply List.Forall_map.
  apply Forall_forall. intros x _. now destruct (is_nan x) eqn:Hx.
Qed.

Lemma In_fill v xs m :
  In m (Series.fill v xs) -> (In m xs /\ is_nan m = false) \/ m = v.
Proof.
  unfold Series.fill. rewrite in_map_iff. intros (x & <- & Hx).
  destruct (is_nan x) eqn:E; auto.
Qed.

Lemma In_fill_number v xs y :
  In y xs -> is_nan y = false -> In y (Series.fill v xs).
Proof.
  intros Hy Hn. unfold Series.fill. apply in_map_iff. exists y.
  now rewrite Hn.
Qed.

Lemma fill_nonempty v xs : Series.count xs <> 0%nat -> Series.fill v xs <> [].
Proof. destruct xs; [intros H; now contradiction H|discriminate]. Qed.

Lemma nanmax_greatest xs :
  Series.count xs <> 0%nat -> greatest xs (Series.nanmax xs).
Proof.
  intros Hc. unfold Series.nanmax.
  rewrite (proj2 (Nat.eqb_neq _ _) Hc).
  destruct (reduce_extreme Series.keep_max keep_max_refl keep_max_trans Series.maximum
              maximum_one maximum_keep_l maximum_keep_r
              (Series.fill neg_infinity xs) (fill_nonempty _ _ Hc)
              (fill_is_numeric neg_infinity xs eq_refl)) as [Hin Hall].
  set (m := Series.reduce Series.maximum (Series.fill neg_infinity xs)) in *.
  assert (Hm : is_nan m = false).
  { pose proof (fill_is_numeric neg_infinity xs eq_refl) as Hnum.
    unfold numeric in Hnum. rewrite Forall_forall in Hnum.
    apply Hnum. now apply list_elem_of_In. }
  assert (Hle : forall y, In y xs -> is_nan y = false -> (y <=? m)%float = true).
  { intros y Hy Hn. apply (Hall y). now apply In_fill_number. }
  split; [|split; [exact Hm|exact Hle]].
  destruct (In_fill _ _ _ Hin) as [[H _]|E]; [exact H|].
  destruct (count_In _ Hc) as (z & Hz & Hn).
  pose proof (Hle z Hz Hn) as Hzm. rewrite E in Hzm.
  apply leb_neg_infinity in Hzm. now rewrite E, <- Hzm.
Qed.

Lemma nanmin_least xs :
  Series.count xs <> 0%nat -> least xs (Series.nanmin xs).
Proof.
  intros Hc. unfold Series.nanmin.
  rewrite (proj2 (Nat.eqb_neq _ _) Hc).
  destruct (reduce_extreme Series.keep_min keep_min_refl keep_min_trans Series.minimum
              minimum_one minimum_keep_l minimum_keep_r
              (Series.fill infinity xs) (fill_nonempty _ _ Hc)
              (fill_is_numeric infinity xs eq_refl)) as [Hin Hall].
  set (m := Series.reduce Series.minimum (Series.fill infinity xs)) in *.
  assert (Hm : is_nan m = false).
  { pose proof (fill_is_numeric infinity xs eq_refl) as Hnum.
    unfold numeric in Hnum. rewrite Forall_forall in Hnum.
    apply Hnum. now apply list_elem_of_In. }
  assert (Hle : forall y, In y xs -> is_nan y = false -> (m <=? y)%float = true).
  { intros y Hy Hn. apply (Hall y). now apply In_fill_number. }
  split; [|split; [exact Hm|exact Hle]].
  destruct (In_fill _ _ _ Hin) as [[H _]|E]; [exact H|].
  destruct (count_In _ Hc) as (z & Hz & Hn).
  pose proof (Hle z Hz Hn) as Hzm. rewrite E in Hzm.
  apply infinity_leb in Hzm. now rewrite E, <- Hzm.
Qed.

Lemma idxmax_Ok_count xs i :
  Series.idxmax (Series.Float64 xs) = Ok i -> Series.count xs <> 0%nat.
Proof.
  unfold Series.idxmax. destruct (Nat.eqb_spec (Series.count xs) 0); [discriminate|auto].
Qed.

(** No entry of a column of numbers is left out of the entries that
    are not missing. *)
Lemma notna_from_numeric xs : forall i,
  numeric xs ->
  List.map snd (Series.notna_from i xs) = xs /\
  List.map fst (Series.notna_from i xs) = seq i (length xs).
Proof.
  induction xs as [|x xs IH]; intros i Hnum; [split; reflexivity|].
  inversion Hnum as [|? ? Hx Hr]; subst. simpl. rewrite Hx. simpl.
  destruct (IH (S i) Hr) as [-> ->]. split; reflexivity.
Qed.

Lemma nth_notna xs k :
  numeric xs -> (k < length xs)%nat ->
  nth k (List.map fst (Series.notna xs)) O = k.
Proof.
  intros Hnum Hk. unfold Series.notna.
  destruct (notna_from_numeric xs 0 Hnum) as [_ ->].
  now rewrite seq_nth.
Qed.

(** On a column of numbers that is not empty, [idxmax] is the position
    of the first entry that no entry exceeds, and that entry equals
    [max] as a number; and so for [idxmin] and [min]. *)
Lemma idxmax_spec xs :
  xs <> [] -> numeric xs ->
  Series.idxmax (Series.Float64 xs) = Ok (Series.argmax xs) /\
  exists y, first_extreme Series.keep_max xs (Series.argmax xs) y /\
            (y =? Series.nanmax xs)%float = true.
Proof.
  intros Hne Hnum.
  destruct (arg_spec Series.keep_max keep_max_refl keep_max_trans keep_max_total
              xs Hne Hnum) as (y & Hy).
  fold Series.argmax in Hy.
  destruct (nanmax_spec xs Hne Hnum) as [Hin Hall].
  split.
  - unfold Series.idxmax. rewrite (count_nonempty _ Hne Hnum). cbv zeta.
    destruct (notna_from_numeric xs 0 Hnum) as [E _]. fold (Series.notna xs) in E.
    rewrite E, nth_notna; [reflexivity|exact Hnum|].
    destruct Hy as (Hat & _). exact (lookup_lt_Some _ _ _ Hat).
  - exists y. split; [exact Hy|].
    destruct Hy as (Hat & Hbest & _).
    apply leb_antisym.
    + apply Hall. apply list_elem_of_In, list_elem_of_lookup. eauto.
    + apply list_elem_of_In, list_elem_of_lookup in Hin as [j Hj].
      exact (Hbest _ _ Hj).
Qed.

Lemma idxmin_spec xs :
  xs <> [] -> numeric xs ->
  Series.idxmin (Series.Float64 xs) = Ok (Series.argmin xs) /\
  exists y, first_extreme Series.keep_min xs (Series.argmin xs) y /\
            (y =? Series.nanmin xs)%float = true.
Proof.
  intros Hne Hnum.
  destruct (arg_spec Series.keep_min keep_min_refl keep_min_trans keep_min_total
              xs Hne Hnum) as (y & Hy).
  fold Series.argmin in Hy.
  destruct (nanmin_spec xs Hne Hnum) as [Hin Hall].
  split.
  - unfold Series.idxmin. rewrite (count_nonempty _ Hne Hnum). cbv zeta.
    destruct (notna_from_numeric xs 0 Hnum) as [E _]. fold (Series.notna xs) in E.
    rewrite E, nth_notna; [reflexivity|exact Hnum|].
    destruct Hy as (Hat & _). exact (lookup_lt_Some _ _ _ Hat).
  - exists y. split; [exact Hy|].
    destruct Hy as (Hat & Hbest & _).
    apply leb_antisym.
    + apply list_elem_of_In, list_elem_of_lookup in Hin as [j Hj].
      exact (Hbest _ _ Hj).
    + apply Hall. apply list_elem_of_In, list_elem_of_lookup. eauto.
Qed.

(** The parts of a long array are shorter than the array, so its
    length bounds the depth of the recursion: the sum is the one of
    the parts whatever greater bound is taken. *)
Lemma pairwise_sum_upto_enough d1 : forall d2 xs,
  (length xs <= d1)%nat -> (length xs <= d2)%nat ->
  Series.pairwise_sum_upto d1 xs = Series.pairwise_sum_upto d2 xs.
Proof.
  induction d1 as [|d1 IH]; intros d2 xs H1 H2.
  - destruct xs; [|simpl in H1; lia]. destruct d2; reflexivity.
  - destruct d2 as [|d2].
    + destruct xs; [reflexivity|simpl in H2; lia].
    + cbn [Series.pairwise_sum_upto].
      destruct (Nat.ltb (length xs) 8); [reflexivity|].
      destruct (Nat.leb_spec (length xs) 128) as [Hle|Hgt]; [reflexivity|].
      assert (Hn2 : (0 < length xs / 2 - (length xs / 2) mod 8 < length xs)%nat).
      { pose proof (Nat.mod_upper_bound (length xs / 2) 8).
        pose proof (Nat.div_mod_eq (length xs) 2).
        pose proof (Nat.mod_upper_bound (length xs) 2). lia. }
      f_equal; apply IH; rewrite ?length_take, ?length_drop; lia.
Qed.

Lemma pairwise_sum_unfold xs :
  Series.pairwise_sum xs =
  let n := length xs in
  if Nat.ltb n 8 then fold_left PrimFloat.add xs (-0)%float
  else if Nat.leb n 128 then Series.block_sum xs
  else
    let n2 := (n / 2 - (n / 2) mod 8)%nat in
    (Series.pairwise_sum (take n2 xs) + Series.pairwise_sum (drop n2 xs))%float.
Proof.
  unfold Series.pairwise_sum. cbv zeta.
  destruct (length xs) as [|d] eqn:E.
  - destruct xs; [reflexivity|discriminate].
  - cbn [Series.pairwise_sum_upto]. rewrite E.
    destruct (Nat.ltb (S d) 8); [reflexivity|].
    destruct (Nat.leb_spec (S d) 128) as [Hle|Hgt]; [reflexivity|].
    assert (Hn2 : (0 < S d / 2 - (S d / 2) mod 8 < S d)%nat).
    { pose proof (Nat.mod_upper_bound (S d / 2) 8).
      pose proof (Nat.div_mod_eq (S d) 2).
      pose proof (Nat.mod_upper_bound (S d) 2). lia. }
    f_equal; apply pairwise_sum_upto_enough;
      rewrite ?length_take, ?length_drop; lia.
Qed.

(** One entry: the mean is the entry added to zero and divided by one,
    which is the entry unless it is negative zero; and there is no
    deviation. *)
Lemma nanmean_one x : Series.nanmean [x] = (0 + x)%float.
Proof.
  unfold Series.nanmean, Series.count, Series.fill, Series.sum. simpl.
  destruct (is_nan x) eqn:Hx; simpl.
  - apply Prim2SF_inj. apply is_nan_Prim2SF in Hx.
    now rewrite FloatAxioms.add_spec, Hx.
  - change (of_nat 1) with 1%float.
    change (Series.pairwise_sum [x]) with (-0 + x)%float.
    now rewrite add_neg_zero, div_one.
Qed.

Lemma nanstd_one x : Series.nanstd [x] = nan.
Proof.
  unfold Series.nanstd, Series.nanvar, Series.count. simpl.
  destruct (is_nan x); reflexivity.
Qed.

End ColumnFacts.

(** A missing entry is skipped, not taken for the least of numbers. *)
Example idxmax_skips_missing :
  Series.idxmax (Series.Float64 [nan; neg_infinity]) = Ok 1%nat /\
  Series.idxmin (Series.Float64 [nan; infinity]) = Ok 1%nat.
Proof. split; vm_compute; reflexivity. Qed.

(** Ten entries are added in eight partial sums, a large entry and
    nine ones to another sum than from left to right. *)
Example mean_of_ten :
  let xs := [1e16; 1; 1; 1; 1; 1; 1; 1; 1; 1]%float in
  format_2f (Series.nanmean xs) = py "1000000000000000.75" /\
  format_2f (Series.nanstd xs) = py "3162277660168379.50" /\
  format_2f (fold_left PrimFloat.add xs 0 / 10)%float = py "1000000000000000.00".
Proof. repeat split; vm_compute; reflexivity. Qed.

(* ================================================================== *)
(** ** The format [.2f] *)
(* ================================================================== *)

Section FormatFacts.

Local Open Scope N_scope.

Lemma str_of_uint_digits d : forallb isdigit (str_of_uint d) = true.
Proof. induction d; simpl; auto. Qed.

Lemma str_of_N_digits n : forallb isdigit (str_of_N n) = true.
Proof. apply str_of_uint_digits. Qed.

Lemma str_of_N_nonempty n : str_of_N n <> [].
Proof.
  unfold str_of_N. destruct n as [|p]; [discriminate|].
  change (N.to_uint (N.pos p)) with (Pos.to_uint p).
  pose proof (DecimalPos.Unsigned.to_uint_nonnil p) as H.
  destruct (Pos.to_uint p); [congruence| discriminate ..].
Qed.

Lemma digit_isdigit d : d < 10 -> isdigit (digit d) = true.
Proof.
  intros H. unfold isdigit, digit.
  apply andb_true_iff. split; apply N.leb_le; lia.
Qed.

Lemma unsigned_two_decimals_digits ds d1 d2 :
  ds <> [] -> forallb isdigit ds = true ->
  isdigit d1 = true -> isdigit d2 = true ->
  unsigned_two_decimals (ds ++ py "." ++ [d1; d2]) = true.
Proof.
  intros Hne Hds H1 H2. unfold unsigned_two_decimals.
  rewrite rev_app_distr. change (rev (py "." ++ [d1; d2])) with [d2; d1; 46].
  cbn [app]. rewrite H1, H2. cbn [andb].
  assert (Hlen : Nat.eqb (length (rev ds)) 0 = false).
  { rewrite length_rev. destruct ds; [congruence|reflexivity]. }
  rewrite Hlen. cbn [negb andb].
  rewrite forallb_forall in Hds |- *. intros y Hy. apply Hds. now apply in_rev.
Qed.

Lemma two_decimals_digits ds d1 d2 :
  ds <> [] -> forallb isdigit ds = true ->
  isdigit d1 = true -> isdigit d2 = true ->
  forall sg, two_decimals (sign sg ++ ds ++ py "." ++ [d1; d2]) = true.
Proof.
  intros Hne Hds H1 H2 sg.
  pose proof (unsigned_two_decimals_digits ds d1 d2 Hne Hds H1 H2) as Hbody.
  destruct sg.
  - exact Hbody.
  - destruct ds as [|c ds']; [congruence|].
    assert (Hc : isdigit c = true) by (simpl in Hds; now apply andb_true_iff in Hds).
    cbn [sign app two_decimals].
    assert (E : (c =? 45) = false).
    { apply N.eqb_neq. intros ->. discriminate. }
    now rewrite E.
Qed.

Lemma fixed2_two_decimals q sg : two_decimals (sign sg ++ fixed2 q) = true.
Proof.
  unfold fixed2. apply two_decimals_digits.
  - apply str_of_N_nonempty.
  - apply str_of_N_digits.
  - apply digit_isdigit. apply N.Div0.div_lt_upper_bound.
    change (10 * 10) with 100. apply N.mod_lt. discriminate.
  - apply digit_isdigit. apply N.mod_lt. discriminate.
Qed.

Lemma round_half_even_nearest num den :
  0 < den ->
  2 * round_half_even num den * den <= 2 * num + den /\
  2 * num <= 2 * round_half_even num den * den + den.
Proof.
  intros Hden. unfold round_half_even.
  pose proof (N.div_mod num den ltac:(lia)) as E.
  pose proof (N.mod_lt num den ltac:(lia)) as B.
  set (q := num / den) in *. set (r := num mod den) in *.
  destruct (N.compare_spec (2 * r) den); [destruct (N.even q)| |]; nia.
Qed.

Lemma hundredths_nearest m e : nearest_hundredths m e (hundredths m e).
Proof.
  unfold nearest_hundredths, hundredths. destruct e as [|p|p]; try reflexivity.
  apply round_half_even_nearest.
  apply N.neq_0_lt_0, N.pow_nonzero. discriminate.
Qed.

Lemma is_infinity_Prim2SF x :
  is_infinity x = true <-> exists s, Prim2SF x = S754_infinity s.
Proof.
  unfold is_infinity. rewrite FloatAxioms.eqb_spec, abs_spec.
  change (Prim2SF infinity) with (S754_infinity false).
  destruct (Prim2SF x) as [s|s| |s m e]; simpl; split;
    try discriminate; try (intros [? ?]; discriminate); eauto.
Qed.

Lemma is_finite_Prim2SF x :
  is_finite x = true ->
  (exists s, Prim2SF x = S754_zero s) \/
  (exists s m e, Prim2SF x = S754_finite s m e).
Proof.
  unfold is_finite. intros H. apply negb_true_iff, orb_false_iff in H.
  destruct H as [Hn Hi].
  apply not_nan_Prim2SF in Hn.
  destruct (Prim2SF x) as [s|s| |s m e] eqn:E; eauto.
  - assert (is_infinity x = true) by (apply is_infinity_Prim2SF; eauto). congruence.
  - congruence.
Qed.

Lemma format_2f_finite x : is_finite x = true -> two_decimals (format_2f x) = true.
Proof.
  intros H. unfold format_2f.
  destruct (is_finite_Prim2SF x H) as [[s ->]|(s & m & e & ->)].
  - destruct s; reflexivity.
  - apply fixed2_two_decimals.
Qed.

Lemma format_2f_nan x : is_nan x = true -> format_2f x = py "nan".
Proof. intros H. apply is_nan_Prim2SF in H. unfold format_2f. now rewrite H. Qed.

Lemma format_2f_infinity x :
  is_infinity x = true -> format_2f x = py "inf" \/ format_2f x = py "-inf".
Proof.
  intros H. apply is_infinity_Prim2SF in H as [s H]. unfold format_2f. rewrite H.
  destruct s; [right|left]; reflexivity.
Qed.

Lemma unsigned_two_decimals_last s :
  unsigned_two_decimals s = true -> exists s' d, s = s' ++ [d] /\ isdigit d = true.
Proof.
  unfold unsigned_two_decimals. intros H.
  destruct (rev s) as [|d2 [|d1 [|c ds]]] eqn:E; try discriminate.
  exists (rev (d1 :: c :: ds)), d2. split.
  - rewrite <- (rev_involutive s), E. reflexivity.
  - destruct c as [|p]; [discriminate|].
    destruct (isdigit d1), (isdigit d2); try reflexivity;
      repeat (destruct p as [p|p|]; try discriminate).
Qed.

Lemma two_decimals_last s :
  two_decimals s = true -> exists s' d, s = s' ++ [d] /\ isdigit d = true.
Proof.
  unfold two_decimals. destruct s as [|c r]; [discriminate|].
  destruct (c =? 45).
  - intros H. destruct (unsigned_two_decimals_last _ H) as (s' & d & -> & Hd).
    exists (c :: s'), d. split; [reflexivity|exact Hd].
  - apply unsigned_two_decimals_last.
Qed.

End FormatFacts.

(* ================================================================== *)
(** ** The summary reporter *)
(* ================================================================== *)

Section SummaryFacts.

Variable float_str : float -> list N.

(** The row of a [float64] column, once the six reads of the column
    are done. *)
Lemma summarize_float64 df col xs :
  df !! col = Some (Series.Float64 xs) ->
  summarize float_str df col =
    (i <-? Series.idxmax (Series.Float64 xs);
     state_max <-? DataFrame.loc df i States;
     j <-? Series.idxmin (Series.Float64 xs);
     state_min <-? DataFrame.loc df j States;
     Ok {| Variable_ := col;
           Average_SD := format_2f (Series.nanmean xs) ++ py " " ++ plus_minus
                           ++ py " " ++ format_2f (Series.nanstd xs);
           Highest_State := format_ float_str state_max ++ py " ("
                              ++ format_2f (Series.nanmax xs) ++ py ")";
           Lowest_State := format_ float_str state_min ++ py " ("
                             ++ format_2f (Series.nanmin xs) ++ py ")" |}).
Proof.
  intros H. unfold summarize, DataFrame.getitem. rewrite H. cbn [rbind Series.mean Series.std].
  destruct (Series.idxmax (Series.Float64 xs)) as [i|e]; [|reflexivity]. cbn [rbind].
  destruct (DataFrame.loc df i States) as [smax|e]; [|reflexivity]. cbn [rbind].
  destruct (Series.idxmin (Series.Float64 xs)) as [j|e]; [|reflexivity]. cbn [rbind].
  destruct (DataFrame.loc df j States) as [smin|e]; reflexivity.
Qed.

(** A row is only ever made from a [float64] column. *)
Lemma summarize_Ok_inv df col r :
  summarize float_str df col = Ok r ->
  exists xs i j state_max state_min,
    df !! col = Some (Series.Float64 xs) /\
    Series.idxmax (Series.Float64 xs) = Ok i /\
    DataFrame.loc df i States = Ok state_max /\
    Series.idxmin (Series.Float64 xs) = Ok j /\
    DataFrame.loc df j States = Ok state_min /\
    r = {| Variable_ := col;
           Average_SD := format_2f (Series.nanmean xs) ++ py " " ++ plus_minus
                           ++ py " " ++ format_2f (Series.nanstd xs);
           Highest_State := format_ float_str state_max ++ py " ("
                              ++ format_2f (Series.nanmax xs) ++ py ")";
           Lowest_State := format_ float_str state_min ++ py " ("
                             ++ format_2f (Series.nanmin xs) ++ py ")" |}.
Proof.
  intros H. destruct (df !! col) as [[l|xs]|] eqn:E.
  - unfold summarize, DataFrame.getitem in H. rewrite E in H. discriminate.
  - rewrite (summarize_float64 _ _ _ E) in H.
    destruct (Series.idxmax (Series.Float64 xs)) as [i|e] eqn:Ei; [|discriminate].
    cbn [rbind] in H.
    destruct (DataFrame.loc df i States) as [smax|e] eqn:Emax; [|discriminate].
    cbn [rbind] in H.
    destruct (Series.idxmin (Series.Float64 xs)) as [j|e] eqn:Ej; [|discriminate].
    cbn [rbind] in H.
    destruct (DataFrame.loc df j States) as [smin|e] eqn:Emin; [|discriminate].
    cbn [rbind] in H. injection H as <-.
    exists xs, i, j, smax, smin. repeat split; assumption.
  - unfold summarize, DataFrame.getitem in H. rewrite E in H. discriminate.
Qed.

Lemma loc_States df names i s :
  df !! States = Some (Series.Text names) -> names !! i = Some s ->
  DataFrame.loc df i States = Ok (VStr s).
Proof.
  intros Hdf Hi. unfold DataFrame.loc. rewrite Hdf. simpl. now rewrite Hi.
Qed.

(** The loop appends a row per column, in the order of the list. *)
Lemma rmap_summarize_names df cols rows :
  rmap (summarize float_str df) cols = Ok rows ->
  List.map Variable_ rows = cols.
Proof.
  revert rows. induction cols as [|c cols IH]; intros rows H; simpl in H.
  - now injection H as <-.
  - destruct (summarize float_str df c) as [r|e] eqn:Er; [|discriminate].
    cbn [rbind] in H.
    destruct (rmap (summarize float_str df) cols) as [rs|e] eqn:Ers; [|discriminate].
    cbn [rbind] in H. injection H as <-. simpl. f_equal; [|now apply IH].
    destruct (summarize_Ok_inv _ _ _ Er) as (? & ? & ? & ? & ? & _ & _ & _ & _ & _ & ->).
    reflexivity.
Qed.

(** The row at the place of a column is the row the body of the loop
    makes for that column, and there is no other row. *)
Lemma summary_lookup df rows i col :
  summary float_str df = Ok rows -> columns_to_summarize !! i = Some col ->
  exists r, rows !! i = Some r /\ summarize float_str df col = Ok r.
Proof.
  unfold summary. intros H Hi. apply rmap_Ok_iff in H.
  destruct (Forall2_lookup_l _ _ _ _ _ H Hi) as (r & Hr & Hs). eauto.
Qed.

Lemma summary_In df rows r :
  summary float_str df = Ok rows -> In r rows ->
  exists col, In col columns_to_summarize /\ summarize float_str df col = Ok r.
Proof.
  unfold summary. intros H Hr. apply rmap_Ok_iff in H.
  apply list_elem_of_In, list_elem_of_lookup in Hr as [i Hi].
  destruct (Forall2_lookup_r _ _ _ _ _ H Hi) as (col & Hcol & Hs).
  exists col. split; [|exact Hs].
  apply list_elem_of_In, list_elem_of_lookup. eauto.
Qed.

End SummaryFacts.

(** C1. What [high_and_low] does on every data set: it changes nothing
    and prints nothing.  When the loop builds its rows, they are one
    per column of [columns_to_summarize], in that order, and the name
    [pd], which the module never binds, then raises [NameError] where
    the table was to be assembled; when the loop raises, so does the
    procedure. *)
Theorem high_and_low_raises float_str st :
  snd (high_and_low float_str st) = st /\
  match summary float_str (frame st) with
  | Ok rows => List.map Variable_ rows = columns_to_summarize /\
               fst (high_and_low float_str st) = Raise NameError
  | Raise e => fst (high_and_low float_str st) = Raise e
  end.
Proof.
  unfold high_and_low, bind, get_frame, lift.
  destruct (summary float_str (frame st)) as [rows|e] eqn:E.
  - split; [reflexivity|]. split; [|reflexivity].
    exact (rmap_summarize_names _ _ _ _ E).
  - split; reflexivity.
Qed.

(** The data set of two states with all nine columns: eight rows are
    built, and the table is never printed. *)
Example high_and_low_ca_tx :
  (exists rows, summary no_float_str ca_tx = Ok rows /\ length rows = 8%nat) /\
  high_and_low no_float_str (initially ca_tx) = (Raise NameError, initially ca_tx).
Proof.
  split.
  - destruct (summary no_float_str ca_tx) as [rows|e] eqn:E.
    + exists rows. split; [reflexivity|].
      apply rmap_summarize_names in E. apply (f_equal (@length _)) in E.
      rewrite length_map in E. exact E.
    + exfalso. revert E. vm_compute. discriminate.
  - vm_compute. reflexivity.
Qed.

(** C4 (amended). In every row the loop of [high_and_low] builds, the
    average field is the mean and the standard deviation of the
    column, each through [.2f], joined by a plus-minus sign between two
    spaces, and each state field is the value of the [States] column
    at the row that [idxmax] (for the lowest, [idxmin]) names,
    followed in parentheses by a greatest (a least) entry of the
    column through [.2f].  [.2f] writes a finite number with exactly
    two decimal places, rounded to the nearest hundredth (12.3 is
    written 12.30); it writes [nan] for an undefined statistic and
    [inf] or [-inf] for an infinite one.  A row whose four statistics
    are finite has all its numbers written with two decimal places. *)
Theorem summary_row_format float_str df rows r :
  summary float_str df = Ok rows -> In r rows ->
  (exists col xs i_max i_min state_max state_min max_val min_val,
     In col columns_to_summarize /\
     df !! col = Some (Series.Float64 xs) /\
     Series.idxmax (Series.Float64 xs) = Ok i_max /\
     DataFrame.loc df i_max States = Ok state_max /\
     Series.idxmin (Series.Float64 xs) = Ok i_min /\
     DataFrame.loc df i_min States = Ok state_min /\
     greatest xs max_val /\ least xs min_val /\
     Variable_ r = col /\
     Average_SD r = format_2f (Series.nanmean xs) ++ py " " ++ plus_minus
                      ++ py " " ++ format_2f (Series.nanstd xs) /\
     Highest_State r = format_ float_str state_max ++ py " ("
                         ++ format_2f max_val ++ py ")" /\
     Lowest_State r = format_ float_str state_min ++ py " ("
                        ++ format_2f min_val ++ py ")" /\
     (is_finite (Series.nanmean xs) = true -> is_finite (Series.nanstd xs) = true ->
      is_finite max_val = true -> is_finite min_val = true ->
      fields_two_decimals r)) /\
  (forall x, is_finite x = true -> two_decimals (format_2f x) = true) /\
  (forall x s m e, Prim2SF x = S754_finite s m e ->
     format_2f x = sign s ++ fixed2 (hundredths m e) /\
     nearest_hundredths m e (hundredths m e)) /\
  (forall x, is_nan x = true -> format_2f x = py "nan") /\
  (forall x, is_infinity x = true ->
     format_2f x = py "inf" \/ format_2f x = py "-inf") /\
  format_2f 12.3 = py "12.30".
Proof.
  intros Hrows Hr.
  destruct (summary_In _ _ _ _ Hrows Hr) as (col & Hin & H).
  destruct (summarize_Ok_inv _ _ _ _ H)
    as (xs & i & j & smax & smin & Hcol & Hi & Hsmax & Hj & Hsmin & ->).
  pose proof (idxmax_Ok_count _ _ Hi) as Hc.
  split; [|split; [|split; [|split; [|split]]]].
  - exists col, xs, i, j, smax, smin, (Series.nanmax xs), (Series.nanmin xs).
    split; [exact Hin|]. split; [exact Hcol|]. split; [exact Hi|].
    split; [exact Hsmax|]. split; [exact Hj|]. split; [exact Hsmin|].
    split; [now apply nanmax_greatest|]. split; [now apply nanmin_least|].
    repeat (split; [reflexivity|]).
    intros Hmean Hstd Hmax Hmin. unfold fields_two_decimals; cbn.
    split; [|split].
    + exists (format_2f (Series.nanmean xs)), (format_2f (Series.nanstd xs)).
      auto using format_2f_finite.
    + exists (format_ float_str smax), (format_2f (Series.nanmax xs)).
      auto using format_2f_finite.
    + exists (format_ float_str smin), (format_2f (Series.nanmin xs)).
      auto using format_2f_finite.
  - apply format_2f_finite.
  - intros x s m e E. split; [|apply hundredths_nearest].
    unfold format_2f. now rewrite E.
  - apply format_2f_nan.
  - apply format_2f_infinity.
  - vm_compute. reflexivity.
Qed.

Lemma summary_row_format_witness :
  exists rows r,
    summary no_float_str ca_tx = Ok rows /\ rows !! 7%nat = Some r /\
    Variable_ r = py "Avg_PM25" /\
    Average_SD r = py "15.00 " ++ plus_minus ++ py " 7.07" /\
    Highest_State r = py "TX (20.00)" /\ Lowest_State r = py "CA (10.00)".
Proof.
  destruct (summary no_float_str ca_tx) as [rows|e] eqn:E;
    [|exfalso; revert E; vm_compute; discriminate].
  assert (Hr : exists r, rows !! 7%nat = Some r /\
                         summarize no_float_str ca_tx (py "Avg_PM25") = Ok r).
  { apply (summary_lookup _ _ _ _ _ E). reflexivity. }
  destruct Hr as (r & Hr & Hs).
  assert (Hin : In r rows).
  { apply list_elem_of_In, list_elem_of_lookup. eauto. }
  destruct (summary_row_format no_float_str ca_tx rows r E Hin)
    as [(col & xs & i & j & a & b & hi & lo & _ & _ & _ & _ & _ & _ & _ & _ & Hv & _) _].
  exists rows, r. split; [reflexivity|]. split; [exact Hr|].
  vm_compute in Hs. injection Hs as <-. repeat split.
Defined.

(** C4 as stated fails on a data set of one row: the standard
    deviation is undefined there, and the average field of the row for
    HDI reads [12.30 ± nan], in which no number with two decimal places
    follows the sign. *)
Lemma one_row_not_two_decimals :
  exists rows r,
    summary no_float_str one_row = Ok rows /\ rows !! 1%nat = Some r /\
    Average_SD r = py "12.30 " ++ plus_minus ++ py " nan" /\
    ~ fields_two_decimals r.
Proof.
  destruct (summary no_float_str one_row) as [rows|e] eqn:E;
    [|exfalso; revert E; vm_compute; discriminate].
  destruct (summary_lookup _ _ _ 1%nat (py "HDI") E eq_refl) as (r & Hr & Hs).
  exists rows, r. split; [reflexivity|]. split; [exact Hr|].
  vm_compute in Hs. injection Hs as <-.
  split; [vm_compute; reflexivity|].
  intros [(a & b & Eab & _ & Hb) _].
  destruct (two_decimals_last _ Hb) as (b' & d & -> & Hd).
  apply (f_equal (@rev N)) in Eab. cbn [Average_SD] in Eab.
  rewrite !rev_app_distr in Eab. cbn [rev app] in Eab.
  vm_compute in Eab. injection Eab as <-. discriminate.
Qed.

(** C5. For a column of numbers, the state reported as highest is the
    one of the row [i_max] that [idxmax] names, at which the maximum
    stands first: no entry is greater than the entry [y_max] there,
    and every entry of an earlier row is smaller.  So when the maximum
    occurs in more than one row, the first of them is reported.  The
    number written after the state is an entry of the column equal to
    [y_max] as a number, as [max] is; it is [y_max] itself unless the
    column holds a negative zero.  Likewise for the lowest state and
    the minimum.  The row is the one that stands in [summary] at the
    place of the column. *)
Theorem first_of_tied_extremes float_str df n col names xs :
  DataFrame.rows df n -> n <> 0%nat ->
  df !! States = Some (Series.Text names) ->
  df !! col = Some (Series.Float64 xs) ->
  numeric xs ->
  exists r i_max i_min s_max s_min y_max y_min m_max m_min,
    summarize float_str df col = Ok r /\
    (forall rows i, summary float_str df = Ok rows ->
                    columns_to_summarize !! i = Some col -> rows !! i = Some r) /\
    Series.idxmax (Series.Float64 xs) = Ok i_max /\
    names !! i_max = Some s_max /\
    xs !! i_max = Some y_max /\
    (forall j y, xs !! j = Some y -> (y <=? y_max)%float = true) /\
    (forall j y, (j < i_max)%nat -> xs !! j = Some y ->
                 (y_max <=? y)%float = false) /\
    (y_max =? Series.nanmax xs)%float = true /\
    In m_max xs /\ (m_max =? y_max)%float = true /\
    (~ In (-0)%float xs -> m_max = y_max) /\
    Highest_State r = s_max ++ py " (" ++ format_2f m_max ++ py ")" /\
    Series.idxmin (Series.Float64 xs) = Ok i_min /\
    names !! i_min = Some s_min /\
    xs !! i_min = Some y_min /\
    (forall j y, xs !! j = Some y -> (y_min <=? y)%float = true) /\
    (forall j y, (j < i_min)%nat -> xs !! j = Some y ->
                 (y <=? y_min)%float = false) /\
    (y_min =? Series.nanmin xs)%float = true /\
    In m_min xs /\ (m_min =? y_min)%float = true /\
    (~ In (-0)%float xs -> m_min = y_min) /\
    Lowest_State r = s_min ++ py " (" ++ format_2f m_min ++ py ")".
Proof.
  intros Hrows Hn Hst Hcol Hnum.
  assert (Hlen_names : length names = n) by exact (Hrows _ _ Hst).
  assert (Hlen_xs : length xs = n) by exact (Hrows _ _ Hcol).
  assert (Hne : xs <> []) by (intros ->; simpl in Hlen_xs; congruence).
  destruct (idxmax_spec xs Hne Hnum)
    as [Himax (y_max & (Hmax_at & Hmax_all & Hmax_first) & Hmax_eq)].
  destruct (idxmin_spec xs Hne Hnum)
    as [Himin (y_min & (Hmin_at & Hmin_all & Hmin_first) & Hmin_eq)].
  destruct (nanmax_spec xs Hne Hnum) as [Hmax_in _].
  destruct (nanmin_spec xs Hne Hnum) as [Hmin_in _].
  assert (Hy_max : In y_max xs)
    by (apply list_elem_of_In, list_elem_of_lookup; eauto).
  assert (Hy_min : In y_min xs)
    by (apply list_elem_of_In, list_elem_of_lookup; eauto).
  destruct (lookup_lt_is_Some_2 names (Series.argmax xs)) as [s_max Hs_max].
  { rewrite Hlen_names, <- Hlen_xs. exact (lookup_lt_Some _ _ _ Hmax_at). }
  destruct (lookup_lt_is_Some_2 names (Series.argmin xs)) as [s_min Hs_min].
  { rewrite Hlen_names, <- Hlen_xs. exact (lookup_lt_Some _ _ _ Hmin_at). }
  eexists _, (Series.argmax xs), (Series.argmin xs), s_max, s_min, y_max, y_min,
    (Series.nanmax xs), (Series.nanmin xs).
  assert (Hs : summarize float_str df col = Ok
    {| Variable_ := col;
       Average_SD := format_2f (Series.nanmean xs) ++ py " " ++ plus_minus
                       ++ py " " ++ format_2f (Series.nanstd xs);
       Highest_State := s_max ++ py " (" ++ format_2f (Series.nanmax xs) ++ py ")";
       Lowest_State := s_min ++ py " (" ++ format_2f (Series.nanmin xs) ++ py ")" |}).
  { rewrite (summarize_float64 _ _ _ _ Hcol), Himax, Himin. cbn [rbind].
    rewrite (loc_States _ _ _ _ Hst Hs_max). cbn [rbind].
    rewrite (loc_States _ _ _ _ Hst Hs_min). cbn [rbind]. reflexivity. }
  split; [exact Hs|]. split.
  { intros rows i Hsum Hi.
    destruct (summary_lookup _ _ _ _ _ Hsum Hi) as (r & Hr & Hs').
    rewrite Hs in Hs'. now injection Hs' as <-. }
  assert (Hsame : forall a b, In a xs -> In b xs -> (a =? b)%float = true ->
                              ~ In (-0)%float xs -> a = b).
  { intros a b Ha Hb Hab Hz. apply eqb_same; [exact Hab| |]; congruence. }
  cbn [Highest_State Lowest_State].
  repeat split; try assumption.
  - now apply eqb_sym.
  - intros Hz. apply Hsame; auto. now apply eqb_sym.
  - now apply eqb_sym.
  - intros Hz. apply Hsame; auto. now apply eqb_sym.
Qed.

Lemma first_of_tied_extremes_witness :
  exists rows r,
    summary no_float_str tied = Ok rows /\ rows !! 1%nat = Some r /\
    Highest_State r = py "Ohio (0.90)" /\
    Lowest_State r = py "Iowa (0.50)".
Proof.
  destruct (first_of_tied_extremes no_float_str tied 4 (py "HDI")
              [py "Iowa"; py "Ohio"; py "Utah"; py "Maine"]
              [0.5; 0.9; 0.9; 0.5]%float)
    as (r & i & j & smax & smin & ymax & ymin & mmax & mmin & Hr & Hrows & _).
  - apply (bool_decide_unpack _). vm_compute. exact I.
  - discriminate.
  - vm_compute. reflexivity.
  - vm_compute. reflexivity.
  - repeat constructor.
  - destruct (summary no_float_str tied) as [rows|e] eqn:E;
      [|exfalso; revert E; vm_compute; discriminate].
    exists rows, r. split; [reflexivity|].
    split; [exact (Hrows rows 1%nat eq_refl eq_refl)|].
    vm_compute in Hr. injection Hr as <-. split; reflexivity.
Defined.

(** The two zeros tie: the first row is named, and the number written
    is the zero that [max] and [min] return, the later one. *)
Example summary_of_two_zeros :
  exists rows r,
    summary no_float_str two_zeros = Ok rows /\ rows !! 1%nat = Some r /\
    Highest_State r = py "Iowa (-0.00)" /\
    Lowest_State r = py "Iowa (-0.00)".
Proof.
  destruct (summary no_float_str two_zeros) as [rows|e] eqn:E;
    [|exfalso; revert E; vm_compute; discriminate].
  destruct (summary_lookup _ _ _ 1%nat (py "HDI") E eq_refl) as (r & Hr & Hs).
  exists rows, r. split; [reflexivity|]. split; [exact Hr|].
  vm_compute in Hs. injection Hs as <-. split; reflexivity.
Qed.

(** C7. On a data set whose states are CA and TX and whose HDI column
    holds 0.9 and 0.8, the row for HDI, the second of [summary], reads
    CA (0.90) as highest state, TX (0.80) as lowest and 0.85 ± 0.07 as
    average: the deviation is the one of a sample, which divides by
    one less than the number of rows. *)
Theorem summary_HDI_CA_TX float_str df :
  df !! States = Some (Series.Text [py "CA"; py "TX"]) ->
  df !! py "HDI" = Some (Series.Float64 [0.9; 0.8]%float) ->
  let row := {| Variable_ := py "HDI";
                Average_SD := py "0.85 " ++ plus_minus ++ py " 0.07";
                Highest_State := py "CA (0.90)";
                Lowest_State := py "TX (0.80)" |} in
  summarize float_str df (py "HDI") = Ok row /\
  (forall rows, summary float_str df = Ok rows -> rows !! 1%nat = Some row) /\
  Series.nanstd [0.9; 0.8]%float
  = PrimFloat.sqrt ((((0.9 + 0.8) / 2 - 0.9) * ((0.9 + 0.8) / 2 - 0.9)
                     + ((0.9 + 0.8) / 2 - 0.8) * ((0.9 + 0.8) / 2 - 0.8)) / 1)%float.
Proof.
  intros Hst Hcol row.
  assert (Hs : summarize float_str df (py "HDI") = Ok row).
  { rewrite (summarize_float64 _ _ _ _ Hcol).
    change (Series.idxmax (Series.Float64 [0.9; 0.8]%float)) with (@Ok nat 0%nat).
    change (Series.idxmin (Series.Float64 [0.9; 0.8]%float)) with (@Ok nat 1%nat).
    cbn [rbind].
    rewrite (loc_States _ _ 0%nat (py "CA") Hst eq_refl). cbn [rbind].
    rewrite (loc_States _ _ 1%nat (py "TX") Hst eq_refl). cbn [rbind format_].
    vm_compute. reflexivity. }
  split; [exact Hs|]. split; [|vm_compute; reflexivity].
  intros rows Hrows.
  destruct (summary_lookup _ _ _ 1%nat (py "HDI") Hrows eq_refl) as (r & Hr & Hs').
  rewrite Hs in Hs'. now injection Hs' as <-.
Qed.

Lemma summary_HDI_CA_TX_witness :
  exists rows r,
    summary no_float_str ca_tx = Ok rows /\ rows !! 1%nat = Some r /\
    Highest_State r = py "CA (0.90)" /\ Lowest_State r = py "TX (0.80)" /\
    Average_SD r = py "0.85 " ++ plus_minus ++ py " 0.07".
Proof.
  destruct (summary_HDI_CA_TX no_float_str ca_tx
              ltac:(vm_compute; reflexivity) ltac:(vm_compute; reflexivity))
    as (_ & H & _).
  destruct (summary no_float_str ca_tx) as [rows|e] eqn:E;
    [|exfalso; revert E; vm_compute; discriminate].
  eexists rows, _. split; [reflexivity|].
  split; [exact (H rows eq_refl)|]. repeat split.
Defined.

(** C8. On a data set of one row, the mean of a column of numbers is
    the value of that row added to zero, which equals the value as a
    number and is the same float unless the value is negative zero,
    whose mean is positive zero; the standard deviation is undefined
    (it is [nan], and written so); and the highest and the lowest
    state are both the state of that row, each followed by the value.
    The row is the one that stands in [summary] at the place of the
    column. *)
Theorem summary_one_row float_str df col s x :
  df !! States = Some (Series.Text [s]) ->
  df !! col = Some (Series.Float64 [x]) ->
  is_nan x = false ->
  let row := {| Variable_ := col;
                Average_SD := format_2f (0 + x)%float ++ py " " ++ plus_minus
                                ++ py " nan";
                Highest_State := s ++ py " (" ++ format_2f x ++ py ")";
                Lowest_State := s ++ py " (" ++ format_2f x ++ py ")" |} in
  Series.nanmean [x] = (0 + x)%float /\
  (Series.nanmean [x] =? x)%float = true /\
  (x <> (-0)%float -> Series.nanmean [x] = x) /\
  is_nan (Series.nanstd [x]) = true /\
  Series.nanmax [x] = x /\ Series.nanmin [x] = x /\
  Series.idxmax (Series.Float64 [x]) = Ok 0%nat /\
  Series.idxmin (Series.Float64 [x]) = Ok 0%nat /\
  summarize float_str df col = Ok row /\
  (forall rows i, summary float_str df = Ok rows ->
                  columns_to_summarize !! i = Some col -> rows !! i = Some row).
Proof.
  intros Hst Hcol Hx row.
  assert (Hmax : Series.nanmax [x] = x).
  { unfold Series.nanmax, Series.count, Series.fill. simpl. now rewrite Hx. }
  assert (Hmin : Series.nanmin [x] = x).
  { unfold Series.nanmin, Series.count, Series.fill. simpl. now rewrite Hx. }
  assert (Hi : Series.idxmax (Series.Float64 [x]) = Ok 0%nat).
  { unfold Series.idxmax, Series.notna, Series.count. simpl. now rewrite Hx. }
  assert (Hj : Series.idxmin (Series.Float64 [x]) = Ok 0%nat).
  { unfold Series.idxmin, Series.notna, Series.count. simpl. now rewrite Hx. }
  assert (Hs : summarize float_str df col = Ok row).
  { rewrite (summarize_float64 _ _ _ _ Hcol).
    rewrite Hi, Hj. cbn [rbind].
    rewrite (loc_States _ _ 0%nat s Hst eq_refl). cbn [rbind format_].
    rewrite nanmean_one, nanstd_one, Hmax, Hmin. reflexivity. }
  split; [apply nanmean_one|].
  split; [rewrite nanmean_one; now apply add_zero_eqb|].
  split; [intros Hz; rewrite nanmean_one; now apply add_zero|].
  split; [now rewrite nanstd_one|].
  split; [exact Hmax|]. split; [exact Hmin|].
  split; [exact Hi|]. split; [exact Hj|]. split; [exact Hs|].
  intros rows i Hrows Hi'.
  destruct (summary_lookup _ _ _ _ _ Hrows Hi') as (r & Hr & Hs').
  rewrite Hs in Hs'. now injection Hs' as <-.
Qed.

Lemma summary_one_row_witness :
  exists rows,
    summary no_float_str one_row = Ok rows /\
    rows !! 1%nat = Some {| Variable_ := py "HDI";
                            Average_SD := py "12.30 " ++ plus_minus ++ py " nan";
                            Highest_State := py "Ohio (12.30)";
                            Lowest_State := py "Ohio (12.30)" |}.
Proof.
  destruct (summary_one_row no_float_str one_row (py "HDI") (py "Ohio") 12.3%float)
    as (_ & _ & _ & _ & _ & _ & _ & _ & _ & H).
  - vm_compute. reflexivity.
  - vm_compute. reflexivity.
  - reflexivity.
  - destruct (summary no_float_str one_row) as [rows|e] eqn:E;
      [|exfalso; revert E; vm_compute; discriminate].
    exists rows. split; [reflexivity|].
    rewrite (H rows 1%nat eq_refl eq_refl). vm_compute. reflexivity.
Defined.

(** One row whose value is negative zero: the mean is written 0.00 and
    the extremes -0.00. *)
Example summary_of_negative_zero :
  exists rows r,
    summary no_float_str one_negative_zero = Ok rows /\ rows !! 1%nat = Some r /\
    Average_SD r = py "0.00 " ++ plus_minus ++ py " nan" /\
    Highest_State r = py "Ohio (-0.00)" /\
    Lowest_State r = py "Ohio (-0.00)".
Proof.
  destruct (summary no_float_str one_negative_zero) as [rows|e] eqn:E;
    [|exfalso; revert E; vm_compute; discriminate].
  destruct (summary_lookup _ _ _ 1%nat (py "HDI") E eq_refl) as (r & Hr & Hs).
  exists rows, r. split; [reflexivity|]. split; [exact Hr|].
  vm_compute in Hs. injection Hs as <-. repeat split.
Qed.

(* ================================================================== *)
(** ** The choropleth renderer *)
(* ================================================================== *)

Section ChoroplethFacts.

Variable lookup : list N -> option us.State.

Lemma States_neq_Avg_PM25 : States <> Avg_PM25.
Proof. discriminate. Qed.

(** [get_abbr] raises nothing but [AttributeError]. *)
Lemma get_abbr_Raise name e : get_abbr lookup name = Raise e -> e = AttributeError.
Proof.
  unfold get_abbr. destruct (bool_decide _); [discriminate|].
  cbn [load_global rbind]. change (load_global "us") with (Ok tt). cbn [rbind].
  destruct (lookup name); [discriminate|]. now intros [= <-].
Qed.

Lemma get_abbr_unknown name :
  name <> py "District of Columbia" -> lookup name = None ->
  get_abbr lookup name = Raise AttributeError.
Proof.
  intros Hne Hl. unfold get_abbr. rewrite bool_decide_eq_false_2 by exact Hne.
  change (load_global "us") with (Ok tt). cbn [rbind]. now rewrite Hl.
Qed.

Lemma get_abbr_state s :
  In s us.STATES -> lookup (us.name s) = Some s ->
  get_abbr lookup (us.name s) = Ok (us.abbr s).
Proof.
  intros Hin Hl. unfold get_abbr.
  assert (Hne : us.name s <> py "District of Columbia").
  { intros E. revert Hin. unfold us.STATES. rewrite in_map_iff.
    intros ((n & a) & <- & Hp). simpl in E.
    repeat (destruct Hp as [[= <- <-]|Hp]; [discriminate E|]). destruct Hp. }
  rewrite bool_decide_eq_false_2 by exact Hne.
  change (load_global "us") with (Ok tt). cbn [rbind]. now rewrite Hl.
Qed.

(** What [choropleth] does, case by case. *)
Lemma choropleth_run st :
  choropleth lookup st =
    match frame st !! States with
    | None => (Raise KeyError, st)
    | Some (Series.Float64 _) => (Raise AttributeError, st)
    | Some (Series.Text names) =>
        match rmap (get_abbr lookup) (List.map strip names) with
        | Raise e => (Raise e, trimmed_state st names)
        | Ok abbrs =>
            let st2 := {| frame := <[States := Series.Text abbrs]> (frame st);
                          shown := shown st; stdout := stdout st |} in
            match frame st !! Avg_PM25 with
            | None => (Raise KeyError, st2)
            | Some pm25 =>
                (Ok tt, {| frame := <[States := Series.Text abbrs]> (frame st);
                           shown := shown st ++ [figure abbrs pm25];
                           stdout := stdout st |})
            end
        end
    end.
Proof.
  unfold choropleth, bind, getitem, setitem, lift, get_frame, show,
    DataFrame.getitem, DataFrame.setitem.
  destruct (frame st !! States) as [[names|xs]|] eqn:Est; cbn [Series.str_strip];
    [|reflexivity|reflexivity].
  cbn [frame shown stdout]. rewrite lookup_insert_eq.
  cbn [Series.apply].
  destruct (rmap (get_abbr lookup) (List.map strip names)) as [abbrs|e];
    cbn [rbind]; [|reflexivity].
  cbn [frame shown stdout]. rewrite insert_insert_eq.
  change (load_global "px") with (Ok tt). cbv iota.
  rewrite (lookup_insert_ne _ States Avg_PM25) by exact States_neq_Avg_PM25.
  destruct (frame st !! Avg_PM25) as [pm25|] eqn:Epm; [|reflexivity].
  cbn [frame shown stdout]. unfold px.choropleth.
  rewrite lookup_insert_eq.
  rewrite (lookup_insert_ne _ States Avg_PM25) by exact States_neq_Avg_PM25.
  rewrite Epm. reflexivity.
Qed.

End ChoroplethFacts.

Lemma lookup_by_name_resolves : us.resolves_names us.lookup_by_name.
Proof.
  unfold us.resolves_names. apply List.Forall_forall.
  unfold us.STATES. cbn [List.map].
  repeat (constructor; [vm_compute; reflexivity|]). constructor.
Qed.

(** C2. A value of the [States] column that is, once trimmed, the full
    name of a state or of the District of Columbia gets the two-letter
    postal code of that state, whenever the directory resolves the
    canonical names; the District of Columbia gets DC whatever the
    directory says.  Applied to a trimmed column of such names, the
    abbreviation step yields the column of their codes.  The codes are
    two letters long, and no two names share one. *)
Theorem get_abbr_postal_code lookup :
  us.resolves_names lookup ->
  (forall v name code,
     strip v = name -> In (name, code) postal_codes ->
     get_abbr lookup (strip v) = Ok code) /\
  (forall names codes,
     Forall2 (fun v code => In (strip v, code) postal_codes) names codes ->
     Series.apply (get_abbr lookup) (Series.Text (List.map strip names))
     = Ok (Series.Text codes)) /\
  get_abbr lookup (py "District of Columbia") = Ok (py "DC") /\
  NoDup (List.map fst postal_codes) /\
  NoDup (List.map snd postal_codes) /\
  Forall (fun p => length (snd p) = 2%nat) postal_codes.
Proof.
  intros Hres.
  assert (Hone : forall name code,
            In (name, code) postal_codes -> get_abbr lookup name = Ok code).
  { intros name code Hin. destruct Hin as [[= <- <-]|Hin].
    - reflexivity.
    - apply in_map_iff in Hin as (s & [= <- <-] & Hs).
      apply get_abbr_state; [exact Hs|]. now apply Hres. }
  split; [|split; [|split; [reflexivity|]]].
  - intros v name code Hv Hin. rewrite Hv. now apply Hone.
  - intros names codes Hall. cbn [Series.apply].
    assert (Hr : rmap (get_abbr lookup) (List.map strip names) = Ok codes).
    { apply rmap_Ok_iff. induction Hall as [|v c names codes Hvc _ IH]; simpl;
        constructor; [now apply Hone|exact IH]. }
    now rewrite Hr.
  - split; [|split].
    + apply (bool_decide_unpack _). vm_compute. exact I.
    + apply (bool_decide_unpack _). vm_compute. exact I.
    + apply List.Forall_forall. intros p Hp.
      destruct Hp as [<-|Hp]; [reflexivity|].
      apply in_map_iff in Hp as (s & <- & Hs). simpl.
      revert Hs. unfold us.STATES. rewrite in_map_iff.
      intros ((n & a) & <- & Hp).
      repeat (destruct Hp as [[= <- <-]|Hp]; [reflexivity|]). destruct Hp.
Qed.

Lemma get_abbr_postal_code_witness :
  get_abbr us.lookup_by_name (strip (py "  New York ")) = Ok (py "NY") /\
  get_abbr us.lookup_by_name (strip (py "District of Columbia ")) = Ok (py "DC").
Proof.
  destruct (get_abbr_postal_code us.lookup_by_name lookup_by_name_resolves)
    as (H & _).
  split.
  - apply (H _ (py "New York")); [vm_compute; reflexivity|].
    vm_compute. do 32 right. left. reflexivity.
  - apply (H _ (py "District of Columbia")); [vm_compute; reflexivity|].
    left. reflexivity.
Defined.

(** C3. When every name resolves and the [Avg_PM25] column holds
    numbers and is not empty, [choropleth] hands the renderer the
    colour range from the minimum to the maximum of that column: both
    are entries of the column, and every entry lies between them.  For
    the two rows California with 10.0 and Texas with 20.0, the
    abbreviations are CA and TX and the range is (10.0, 20.0),
    whenever the directory resolves the canonical names. *)
Theorem choropleth_range_color lookup :
  (forall st names xs abbrs,
     frame st !! States = Some (Series.Text names) ->
     frame st !! Avg_PM25 = Some (Series.Float64 xs) ->
     xs <> [] -> numeric xs ->
     rmap (get_abbr lookup) (List.map strip names) = Ok abbrs ->
     exists fig,
       choropleth lookup st =
         (Ok tt, {| frame := <[States := Series.Text abbrs]> (frame st);
                    shown := shown st ++ [fig]; stdout := stdout st |}) /\
       px.locations fig = Series.Text abbrs /\
       px.color fig = Series.Float64 xs /\
       px.range_color fig = (VFloat (Series.nanmin xs), VFloat (Series.nanmax xs)) /\
       In (Series.nanmin xs) xs /\ In (Series.nanmax xs) xs /\
       (forall x, In x xs -> (Series.nanmin xs <=? x)%float = true /\
                             (x <=? Series.nanmax xs)%float = true)) /\
  (us.resolves_names lookup ->
   exists fig,
     choropleth lookup (initially two_states) =
       (Ok tt, {| frame := <[States := Series.Text [py "CA"; py "TX"]]> two_states;
                  shown := [fig]; stdout := [] |}) /\
     px.locations fig = Series.Text [py "CA"; py "TX"] /\
     px.range_color fig = (VFloat 10.0, VFloat 20.0)).
Proof.
  split.
  - intros st names xs abbrs Hst Hpm Hne Hnum Habbr.
    exists (figure abbrs (Series.Float64 xs)).
    split; [rewrite choropleth_run, Hst, Habbr, Hpm; reflexivity|].
    repeat (split; [reflexivity|]).
    destruct (nanmax_spec xs Hne Hnum) as [Hmax_in Hmax_all].
    destruct (nanmin_spec xs Hne Hnum) as [Hmin_in Hmin_all].
    split; [exact Hmin_in|]. split; [exact Hmax_in|].
    intros x Hx. split; [exact (Hmin_all _ Hx)|exact (Hmax_all _ Hx)].
  - intros Hres.
    assert (HCA : get_abbr lookup (py "California") = Ok (py "CA")).
    { apply (get_abbr_state lookup {| us.name := py "California"; us.abbr := py "CA" |});
        [|apply Hres]; vm_compute; do 4 right; left; reflexivity. }
    assert (HTX : get_abbr lookup (py "Texas") = Ok (py "TX")).
    { apply (get_abbr_state lookup {| us.name := py "Texas"; us.abbr := py "TX" |});
        [|apply Hres]; vm_compute; do 42 right; left; reflexivity. }
    exists (figure [py "CA"; py "TX"] (Series.Float64 [10.0; 20.0]%float)).
    split; [|split; [reflexivity|vm_compute; reflexivity]].
    rewrite choropleth_run.
    assert (Hst : frame (initially two_states) !! States
                  = Some (Series.Text [py "California"; py "Texas"]))
      by (vm_compute; reflexivity).
    assert (Hpm : frame (initially two_states) !! Avg_PM25
                  = Some (Series.Float64 [10.0; 20.0]%float))
      by (vm_compute; reflexivity).
    assert (Hr : rmap (get_abbr lookup) (List.map strip [py "California"; py "Texas"])
                 = Ok [py "CA"; py "TX"]).
    { apply rmap_Ok_iff. cbn [List.map].
      constructor; [exact HCA|]. constructor; [exact HTX|]. constructor. }
    rewrite Hst, Hr, Hpm. reflexivity.
Qed.

Lemma choropleth_range_color_witness :
  exists fig,
    choropleth us.lookup_by_name (initially two_states) =
      (Ok tt, {| frame := <[States := Series.Text [py "CA"; py "TX"]]> two_states;
                 shown := [fig]; stdout := [] |}) /\
    px.locations fig = Series.Text [py "CA"; py "TX"] /\
    px.range_color fig = (VFloat 10.0, VFloat 20.0).
Proof.
  exact (proj2 (choropleth_range_color us.lookup_by_name) lookup_by_name_resolves).
Defined.

(** C6. When the trimmed name of some row is not the District of
    Columbia and the directory does not know it, [choropleth] raises
    [AttributeError] and displays nothing; the [States] column then
    holds the trimmed names of all rows, none replaced by an
    abbreviation, and the rest of the data set is as it was. *)
Theorem choropleth_unknown_state lookup st names v :
  frame st !! States = Some (Series.Text names) ->
  In v names ->
  strip v <> py "District of Columbia" ->
  lookup (strip v) = None ->
  choropleth lookup st =
    (Raise AttributeError,
     {| frame := <[States := Series.Text (List.map strip names)]> (frame st);
        shown := shown st; stdout := stdout st |}).
Proof.
  intros Hst Hin Hdc Hnone. rewrite choropleth_run, Hst.
  rewrite (rmap_Raise_one (get_abbr lookup) (List.map strip names) AttributeError).
  - reflexivity.
  - apply get_abbr_Raise.
  - exists (strip v). split; [now apply in_map|]. now apply get_abbr_unknown.
Qed.

Lemma choropleth_unknown_state_witness :
  choropleth us.lookup_by_name (initially with_atlantis) =
    (Raise AttributeError,
     {| frame := <[States := Series.Text [py "California"; py "Atlantis"; py "Texas"]]>
                   with_atlantis;
        shown := []; stdout := [] |}).
Proof.
  apply (choropleth_unknown_state us.lookup_by_name (initially with_atlantis)
           [py " California"; py "Atlantis  "; py "Texas"] (py "Atlantis  ")).
  - vm_compute. reflexivity.
  - right. left. reflexivity.
  - vm_compute. discriminate.
  - vm_compute. reflexivity.
Defined.

(** C9. Whenever [choropleth] returns, the [States] column of the
    caller's data set holds, row by row, the abbreviation of the
    trimmed name that was there, and every other column is what it
    was. *)
Theorem choropleth_overwrites_States lookup st :
  fst (choropleth lookup st) = Ok tt ->
  exists names abbrs,
    frame st !! States = Some (Series.Text names) /\
    Forall2 (fun v a => get_abbr lookup (strip v) = Ok a) names abbrs /\
    frame (snd (choropleth lookup st)) !! States = Some (Series.Text abbrs) /\
    forall col, col <> States ->
                frame (snd (choropleth lookup st)) !! col = frame st !! col.
Proof.
  rewrite choropleth_run.
  destruct (frame st !! States) as [[names|xs]|] eqn:Hst; try discriminate.
  destruct (rmap (get_abbr lookup) (List.map strip names)) as [abbrs|e] eqn:Habbr;
    [|discriminate].
  cbv zeta.
  destruct (frame st !! Avg_PM25) as [pm25|]; [|discriminate].
  intros _. exists names, abbrs. split; [reflexivity|].
  split.
  { apply (Forall2_map_l (fun a b => get_abbr lookup a = Ok b) strip).
    apply rmap_Ok_iff, Habbr. }
  cbn [snd frame]. split; [apply lookup_insert_eq|].
  intros col Hcol. now apply lookup_insert_ne.
Qed.

Lemma choropleth_overwrites_States_witness :
  frame (snd (choropleth us.lookup_by_name (initially two_states))) !! States
    = Some (Series.Text [py "CA"; py "TX"]) /\
  frame (snd (choropleth us.lookup_by_name (initially two_states))) !! Avg_PM25
    = two_states !! Avg_PM25.
Proof.
  destruct (choropleth_overwrites_States us.lookup_by_name (initially two_states))
    as (names & abbrs & _ & _ & _ & Hother).
  - vm_compute. reflexivity.
  - split; [vm_compute; reflexivity|].
    apply Hother. discriminate.
Defined.

(* ================================================================== *)
(** ** Further properties of the two procedures *)
(* ================================================================== *)

Section MoreStripFacts.

Lemma lstrip_split (s : list N) :
  exists l, s = l ++ lstrip s /\ forallb isspace l = true.
Proof.
  induction s as [|c s (l & E & Hl)]; [exists []; split; reflexivity|].
  simpl. destruct (isspace c) eqn:Hc.
  - exists (c :: l). split; [simpl; now rewrite <- E|]. simpl. now rewrite Hc.
  - exists []. split; reflexivity.
Qed.

Lemma rstrip_split (s : list N) :
  exists r, s = rstrip s ++ r /\ forallb isspace r = true.
Proof.
  unfold rstrip. destruct (lstrip_split (rev s)) as (l & E & Hl).
  exists (rev l). split.
  - rewrite <- rev_app_distr, <- E. now rewrite rev_involutive.
  - rewrite forallb_forall in Hl |- *. intros c Hc. apply Hl. now apply in_rev.
Qed.

End MoreStripFacts.

(** X1. Trimming removes white space and nothing else, at the two ends
    only: a value is what [strip] returns with white space before and
    after it, and what [strip] returns has none at either end. *)
Theorem strip_removes_only_space (s : list N) :
  exists l r,
    s = l ++ strip s ++ r /\
    forallb isspace l = true /\ forallb isspace r = true /\
    trimmed (strip s).
Proof.
  destruct (lstrip_split s) as (l & El & Hl).
  destruct (rstrip_split (lstrip s)) as (r & Er & Hr).
  exists l, r. split; [|split; [exact Hl|split; [exact Hr|apply strip_trimmed]]].
  unfold strip. now rewrite <- Er.
Qed.

Section MoreResultFacts.

Lemma rmap_is_Ok {A B} (f : A -> Result B) l :
  (exists l', rmap f l = Ok l') <-> Forall (fun a => exists b, f a = Ok b) l.
Proof.
  split.
  - intros [l' H]. apply rmap_Ok_iff in H.
    induction H as [|a b l l' Hab _ IH]; constructor; eauto.
  - induction 1 as [|a l [b Hb] _ [l' IH]]; simpl.
    + eauto.
    + rewrite Hb. cbn [rbind]. rewrite IH. cbn [rbind]. eauto.
Qed.

Lemma rmap_Raise_inv {A B} (f : A -> Result B) l e :
  rmap f l = Raise e -> exists a, In a l /\ f a = Raise e.
Proof.
  induction l as [|a l IH]; simpl; [discriminate|].
  destruct (f a) as [b|e'] eqn:Ea; cbn [rbind].
  - destruct (rmap f l) as [bs|e'] eqn:El; cbn [rbind]; [discriminate|].
    intros [= <-]. destruct (IH eq_refl) as (a' & Hin & Ha'). eauto.
  - intros [= <-]. eauto.
Qed.

(** The first call that raises decides what the sequence raises. *)
Lemma rmap_Raise_at {A B} (f : A -> Result B) l i a e :
  l !! i = Some a -> f a = Raise e ->
  (forall j b, (j < i)%nat -> l !! j = Some b -> exists r, f b = Ok r) ->
  rmap f l = Raise e.
Proof.
  revert i. induction l as [|a0 l IH]; intros i Hi Ha Hbefore;
    [now rewrite lookup_nil in Hi|].
  destruct i as [|i]; simpl in Hi.
  - injection Hi as ->. simpl. now rewrite Ha.
  - destruct (Hbefore 0%nat a0 ltac:(lia) eq_refl) as [r Hr].
    simpl. rewrite Hr. cbn [rbind].
    rewrite (IH i Hi Ha); [reflexivity|].
    intros j b Hj Hb. apply (Hbefore (S j) b); [lia|exact Hb].
Qed.

End MoreResultFacts.

Section MoreChoroplethFacts.

Variable lookup : list N -> option us.State.

Lemma get_abbr_is_Ok name :
  (exists a, get_abbr lookup name = Ok a) <->
  name = py "District of Columbia" \/ is_Some (lookup name).
Proof.
  unfold get_abbr. destruct (bool_decide_reflect (name = py "District of Columbia"))
    as [E|E].
  - split; eauto.
  - change (load_global "us") with (Ok tt). cbn [rbind].
    destruct (lookup name) as [s|]; split.
    + intros _. right. eauto.
    + eauto.
    + intros [a H]. discriminate.
    + intros [H|[s H]]; [contradiction|discriminate].
Qed.

Lemma rmap_get_abbr_is_Ok names :
  (exists abbrs, rmap (get_abbr lookup) (List.map strip names) = Ok abbrs) <->
  Forall (fun v => strip v = py "District of Columbia" \/ is_Some (lookup (strip v)))
         names.
Proof.
  rewrite rmap_is_Ok, List.Forall_map. apply Forall_iff.
  intros v. apply get_abbr_is_Ok.
Qed.

Lemma count_all_missing xs :
  Forall (fun x => is_nan x = true) xs -> Series.count xs = 0%nat.
Proof.
  unfold Series.count. induction 1 as [|x xs Hx _ IH]; [reflexivity|].
  simpl. rewrite Hx. exact IH.
Qed.

Lemma rmap_length {A B} (f : A -> Result B) l l' :
  rmap f l = Ok l' -> length l' = length l.
Proof. intros H. apply rmap_Ok_iff in H. symmetry. exact (Forall2_length _ _ _ H). Qed.

End MoreChoroplethFacts.

(** X2. White space around the names makes no difference: two data
    sets that differ in their [States] column only, and there only in
    white space that trimming removes, get the same result from
    [choropleth] and are left in the same state. *)
Theorem choropleth_ignores_outer_space lookup st names names' :
  frame st !! States = Some (Series.Text names) ->
  List.map strip names' = List.map strip names ->
  choropleth lookup (with_States st names') = choropleth lookup st.
Proof.
  intros Hst Hmap. rewrite !choropleth_run. unfold with_States, trimmed_state.
  cbn [frame shown stdout]. rewrite lookup_insert_eq, Hst, Hmap.
  rewrite (lookup_insert_ne _ States Avg_PM25) by exact States_neq_Avg_PM25.
  rewrite !insert_insert_eq.
  destruct (rmap (get_abbr lookup) (List.map strip names)) as [abbrs|e];
    [|reflexivity].
  cbv zeta. rewrite !insert_insert_eq. reflexivity.
Qed.

Lemma choropleth_ignores_outer_space_witness :
  choropleth us.lookup_by_name (with_States (initially two_states) padded_names)
  = choropleth us.lookup_by_name (initially two_states).
Proof.
  apply (choropleth_ignores_outer_space us.lookup_by_name (initially two_states)
           [py "California"; py "Texas"] padded_names).
  - vm_compute. reflexivity.
  - vm_compute. reflexivity.
Defined.

(** X3. [choropleth] returns exactly when the [States] column holds
    strings, the trimmed name of every row is the District of Columbia
    or known to the directory, and there is an [Avg_PM25] column.  It
    then displays one figure: as locations, in the mode USA-states, the
    abbreviations that [get_abbr] gives row by row for the trimmed
    names, which are also the [States] column it leaves; [Avg_PM25] as
    colour on the scale green, yellow, orange, red; the scope usa; and
    Average PM2.5 as the label of the colour. *)
Theorem choropleth_returns_iff lookup st :
  (fst (choropleth lookup st) = Ok tt <->
   exists names pm25,
     frame st !! States = Some (Series.Text names) /\
     Forall (fun v => strip v = py "District of Columbia" \/
                      is_Some (lookup (strip v))) names /\
     frame st !! Avg_PM25 = Some pm25) /\
  (fst (choropleth lookup st) = Ok tt ->
   exists names abbrs pm25,
     frame st !! States = Some (Series.Text names) /\
     Forall2 (fun v a => get_abbr lookup (strip v) = Ok a) names abbrs /\
     frame st !! Avg_PM25 = Some pm25 /\
     frame (snd (choropleth lookup st)) !! States = Some (Series.Text abbrs) /\
     shown (snd (choropleth lookup st)) =
       shown st ++
       [ {| px.locations := Series.Text abbrs;
            px.locationmode := py "USA-states";
            px.color := pm25;
            px.scope := py "usa";
            px.color_continuous_scale :=
              [py "green"; py "yellow"; py "orange"; py "red"];
            px.range_color := (Series.min pm25, Series.max pm25);
            px.labels := [(py "Avg_PM25", py "Average PM2.5")] |} ]).
Proof.
  rewrite choropleth_run. split; [split|].
  - destruct (frame st !! States) as [[names|xs]|] eqn:Hst; try discriminate.
    destruct (rmap (get_abbr lookup) (List.map strip names)) as [abbrs|e] eqn:Hr;
      [|discriminate].
    cbv zeta. destruct (frame st !! Avg_PM25) as [pm25|] eqn:Hpm; [|discriminate].
    intros _. exists names, pm25. split; [reflexivity|]. split; [|reflexivity].
    apply rmap_get_abbr_is_Ok. eauto.
  - intros (names & pm25 & -> & Hall & ->).
    apply rmap_get_abbr_is_Ok in Hall as [abbrs ->]. reflexivity.
  - destruct (frame st !! States) as [[names|xs]|] eqn:Hst; try discriminate.
    destruct (rmap (get_abbr lookup) (List.map strip names)) as [abbrs|e] eqn:Hr;
      [|discriminate].
    cbv zeta. destruct (frame st !! Avg_PM25) as [pm25|] eqn:Hpm; [|discriminate].
    intros _. exists names, abbrs, pm25. split; [reflexivity|]. split.
    { apply (Forall2_map_l (fun a b => get_abbr lookup a = Ok b) strip).
      apply rmap_Ok_iff, Hr. }
    split; [reflexivity|]. split; [|reflexivity].
    cbn [snd frame]. apply lookup_insert_eq.
Qed.

Lemma choropleth_returns_iff_witness :
  fst (choropleth us.lookup_by_name (initially with_DC)) = Ok tt /\
  fst (choropleth us.lookup_by_name (initially with_atlantis)) <> Ok tt.
Proof.
  split.
  - apply (proj1 (choropleth_returns_iff us.lookup_by_name (initially with_DC))).
    exists [py "Ohio"; py " District of Columbia"], (Series.Float64 [8.4; 9.1]%float).
    split; [vm_compute; reflexivity|]. split; [|vm_compute; reflexivity].
    constructor; [right; vm_compute; eauto|].
    constructor; [left; vm_compute; reflexivity|constructor].
  - intros H.
    apply (proj1 (choropleth_returns_iff us.lookup_by_name (initially with_atlantis)))
      in H as (names & pm25 & Hst & Hall & _).
    vm_compute in Hst. injection Hst as <-.
    apply Forall_cons_1 in Hall as [_ Hall].
    apply Forall_cons_1 in Hall as [[H|[s H]] _]; vm_compute in H; discriminate.
Defined.

(** X4. Whatever the data set, [choropleth] prints nothing; when it
    raises, no figure is displayed; when it returns, exactly one
    figure has been added to those displayed. *)
Theorem choropleth_effects lookup st :
  stdout (snd (choropleth lookup st)) = stdout st /\
  match fst (choropleth lookup st) with
  | Ok _ => exists fig, shown (snd (choropleth lookup st)) = shown st ++ [fig]
  | Raise _ => shown (snd (choropleth lookup st)) = shown st
  end.
Proof.
  rewrite choropleth_run.
  destruct (frame st !! States) as [[names|xs]|] eqn:Hst.
  - destruct (rmap (get_abbr lookup) (List.map strip names)) as [abbrs|e] eqn:Hr.
    + cbv zeta. destruct (frame st !! Avg_PM25) as [pm25|]; cbn.
      * split; [reflexivity|]. eauto.
      * split; reflexivity.
    + cbn. split; reflexivity.
  - cbn. split; reflexivity.
  - cbn. split; reflexivity.
Qed.

(** X5. When every name resolves but the data set has no [Avg_PM25]
    column, [choropleth] raises [KeyError] after it has written the
    abbreviations: nothing is displayed and the caller's [States]
    column holds the abbreviations. *)
Theorem choropleth_missing_Avg_PM25 lookup st names abbrs :
  frame st !! States = Some (Series.Text names) ->
  rmap (get_abbr lookup) (List.map strip names) = Ok abbrs ->
  frame st !! Avg_PM25 = None ->
  choropleth lookup st =
    (Raise KeyError,
     {| frame := <[States := Series.Text abbrs]> (frame st);
        shown := shown st; stdout := stdout st |}).
Proof.
  intros Hst Hr Hpm. now rewrite choropleth_run, Hst, Hr, Hpm.
Qed.

Lemma choropleth_missing_Avg_PM25_witness :
  choropleth us.lookup_by_name (initially only_States) =
    (Raise KeyError,
     {| frame := <[States := Series.Text [py "OH"; py "UT"]]> only_States;
        shown := []; stdout := [] |}).
Proof.
  apply (choropleth_missing_Avg_PM25 us.lookup_by_name (initially only_States)
           [py "Ohio "; py " Utah"]); vm_compute; reflexivity.
Defined.

(** X6. Whether [choropleth] returns or raises, it leaves every column
    other than [States] as it was, adds no column and drops none, and
    keeps the number of rows. *)
Theorem choropleth_keeps_shape lookup st :
  (forall col, col <> States ->
     frame (snd (choropleth lookup st)) !! col = frame st !! col) /\
  dom (frame (snd (choropleth lookup st))) = dom (frame st) /\
  (forall n, DataFrame.rows (frame st) n ->
             DataFrame.rows (frame (snd (choropleth lookup st))) n).
Proof.
  rewrite choropleth_run.
  destruct (frame st !! States) as [[names|xs]|] eqn:Hst;
    [|cbn [snd]; auto|cbn [snd]; auto].
  assert (Hin : States ∈ dom (frame st)) by (apply elem_of_dom; eauto).
  assert (Hshape : forall l, length l = length names ->
            (forall col, col <> States ->
               <[States := Series.Text l]> (frame st) !! col = frame st !! col) /\
            dom (<[States := Series.Text l]> (frame st)) = dom (frame st) /\
            (forall n, DataFrame.rows (frame st) n ->
                       DataFrame.rows (<[States := Series.Text l]> (frame st)) n)).
  { intros l Hl. split; [|split].
    - intros col Hcol. now apply lookup_insert_ne.
    - rewrite dom_insert_L. apply subseteq_union_1_L.
      now apply singleton_subseteq_l.
    - intros n Hn. unfold DataFrame.rows. apply map_Forall_insert_2; [|exact Hn].
      simpl. rewrite Hl. exact (Hn _ _ Hst). }
  destruct (rmap (get_abbr lookup) (List.map strip names)) as [abbrs|e] eqn:Hr.
  - assert (Hlen : length abbrs = length names).
    { rewrite (rmap_length _ _ _ Hr). apply length_map. }
    cbv zeta. destruct (frame st !! Avg_PM25) as [pm25|]; cbn [snd frame];
      now apply Hshape.
  - unfold trimmed_state. cbn [snd frame]. apply Hshape. apply length_map.
Qed.

(** X7. When the [Avg_PM25] column holds no number, being empty or all
    missing, [choropleth] still displays its figure, with a colour
    range from [nan] to [nan]. *)
Theorem choropleth_no_numbers lookup st names abbrs xs :
  frame st !! States = Some (Series.Text names) ->
  rmap (get_abbr lookup) (List.map strip names) = Ok abbrs ->
  frame st !! Avg_PM25 = Some (Series.Float64 xs) ->
  Forall (fun x => is_nan x = true) xs ->
  exists fig,
    choropleth lookup st =
      (Ok tt, {| frame := <[States := Series.Text abbrs]> (frame st);
                 shown := shown st ++ [fig]; stdout := stdout st |}) /\
    px.range_color fig = (VFloat nan, VFloat nan).
Proof.
  intros Hst Hr Hpm Hnan.
  exists (figure abbrs (Series.Float64 xs)).
  split; [now rewrite choropleth_run, Hst, Hr, Hpm|].
  pose proof (count_all_missing xs Hnan) as Hcount.
  unfold figure. cbn [px.range_color Series.min Series.max].
  unfold Series.nanmin, Series.nanmax. now rewrite Hcount.
Qed.

Lemma choropleth_no_numbers_witness :
  exists fig,
    choropleth us.lookup_by_name (initially no_rows) =
      (Ok tt, {| frame := <[States := Series.Text []]> no_rows;
                 shown := [fig]; stdout := [] |}) /\
    px.range_color fig = (VFloat nan, VFloat nan).
Proof.
  apply (choropleth_no_numbers us.lookup_by_name (initially no_rows) [] [] []).
  - vm_compute. reflexivity.
  - reflexivity.
  - vm_compute. reflexivity.
  - constructor.
Defined.

(** X8. [choropleth] cannot be run twice on a data set with a row for
    the District of Columbia when the directory does not know DC as a
    name: the first run writes DC in that row, and the second run,
    which looks that value up like any other, raises
    [AttributeError]. *)
Theorem choropleth_twice lookup st names v :
  frame st !! States = Some (Series.Text names) ->
  In v names -> strip v = py "District of Columbia" ->
  lookup (py "DC") = None ->
  fst (choropleth lookup st) = Ok tt ->
  fst (choropleth lookup (snd (choropleth lookup st))) = Raise AttributeError.
Proof.
  intros Hst Hin Hdc Hnone. rewrite (choropleth_run lookup st), Hst.
  destruct (rmap (get_abbr lookup) (List.map strip names)) as [abbrs|e] eqn:Hr;
    [|discriminate].
  cbv zeta. destruct (frame st !! Avg_PM25) as [pm25|] eqn:Hpm; [|discriminate].
  intros _. cbn [snd]. rewrite choropleth_run. cbn [frame].
  rewrite lookup_insert_eq.
  assert (HDC : In (py "DC") abbrs).
  { apply rmap_Ok_iff in Hr.
    apply list_elem_of_In, list_elem_of_lookup in Hin as [i Hi].
    assert (Hi' : List.map strip names !! i = Some (strip v)).
    { clear -Hi. revert i Hi. induction names as [|a l IH]; intros [|i] Hi;
        try discriminate; simpl in *; [congruence|auto]. }
    destruct (Forall2_lookup_l _ _ _ _ _ Hr Hi') as (a & Ha & Hga).
    rewrite Hdc in Hga. injection Hga as <-.
    apply list_elem_of_In, list_elem_of_lookup. eauto. }
  rewrite (rmap_Raise_one (get_abbr lookup) (List.map strip abbrs) AttributeError);
    [reflexivity|apply get_abbr_Raise|].
  exists (py "DC"). split.
  - change (py "DC") with (strip (py "DC")) at 1. now apply in_map.
  - apply get_abbr_unknown; [discriminate|exact Hnone].
Qed.

Lemma choropleth_twice_witness :
  fst (choropleth us.lookup_by_name (initially with_DC)) = Ok tt /\
  fst (choropleth us.lookup_by_name
         (snd (choropleth us.lookup_by_name (initially with_DC))))
  = Raise AttributeError.
Proof.
  assert (H1 : fst (choropleth us.lookup_by_name (initially with_DC)) = Ok tt)
    by (vm_compute; reflexivity).
  split; [exact H1|].
  apply (choropleth_twice us.lookup_by_name (initially with_DC)
           [py "Ohio"; py " District of Columbia"] (py " District of Columbia")).
  - vm_compute. reflexivity.
  - right. left. reflexivity.
  - vm_compute. reflexivity.
  - vm_compute. reflexivity.
  - exact H1.
Defined.

Section MoreSummaryFacts.

Variable float_str : float -> list N.

Lemma summarize_missing df col :
  df !! col = None -> summarize float_str df col = Raise KeyError.
Proof. intros H. unfold summarize, DataFrame.getitem. now rewrite H. Qed.

(** The body of the loop raises one of three exceptions. *)
Lemma summarize_Raise df col e :
  summarize float_str df col = Raise e ->
  e = KeyError \/ e = TypeError \/ e = ValueError.
Proof.
  destruct (df !! col) as [[l|xs]|] eqn:Hcol.
  - unfold summarize, DataFrame.getitem. rewrite Hcol. cbn. intros [= <-]. auto.
  - rewrite (summarize_float64 _ _ _ _ Hcol).
    unfold Series.idxmax, Series.idxmin, DataFrame.loc.
    destruct (Nat.eqb (Series.count xs) 0); cbn [rbind]; [intros [= <-]; auto|].
    destruct (df !! States) as [s|]; cbn [rbind]; [|intros [= <-]; auto].
    destruct (Series.at_ s _); cbn [rbind]; [|intros [= <-]; auto].
    destruct (Series.at_ s _); cbn [rbind]; [discriminate|intros [= <-]; auto].
  - rewrite (summarize_missing _ _ Hcol). intros [= <-]. auto.
Qed.

Lemma summarize_without_States df col r :
  df !! States = None -> summarize float_str df col <> Ok r.
Proof.
  intros Hst H.
  destruct (summarize_Ok_inv _ _ _ _ H) as (xs & i & j & a & b & _ & _ & Hloc & _).
  unfold DataFrame.loc in Hloc. rewrite Hst in Hloc. discriminate.
Qed.

Lemma high_and_low_Raise st e :
  summary float_str (frame st) = Raise e ->
  high_and_low float_str st = (Raise e, st).
Proof. intros H. unfold high_and_low, bind, get_frame, lift. now rewrite H. Qed.

End MoreSummaryFacts.

(** X9. When a column of the list is missing from the data set and the
    columns before it in the list are summarized without fault,
    [high_and_low] raises [KeyError], prints nothing and leaves the
    data set as it was. *)
Theorem high_and_low_missing_column float_str st i col :
  columns_to_summarize !! i = Some col ->
  frame st !! col = None ->
  (forall j c, (j < i)%nat -> columns_to_summarize !! j = Some c ->
               exists r, summarize float_str (frame st) c = Ok r) ->
  high_and_low float_str st = (Raise KeyError, st).
Proof.
  intros Hi Hcol Hbefore. apply high_and_low_Raise. unfold summary.
  apply (rmap_Raise_at _ _ i col); [exact Hi| |exact Hbefore].
  now apply summarize_missing.
Qed.

Lemma high_and_low_missing_column_witness :
  high_and_low no_float_str (initially ca_tx_without_HDI)
  = (Raise KeyError, initially ca_tx_without_HDI).
Proof.
  apply (high_and_low_missing_column no_float_str (initially ca_tx_without_HDI)
           1%nat (py "HDI")).
  - reflexivity.
  - vm_compute. reflexivity.
  - intros [|j] c Hj Hc; [|lia]. injection Hc as <-.
    eexists. vm_compute. reflexivity.
Defined.

(** X10. On a data set without rows, [high_and_low] raises
    [ValueError]: the first column has a mean, a deviation and extremes,
    all undefined, but no row at which the maximum stands. *)
Theorem high_and_low_no_rows float_str st :
  frame st !! py "Not_graduated" = Some (Series.Float64 []) ->
  high_and_low float_str st = (Raise ValueError, st).
Proof.
  intros Hcol. apply high_and_low_Raise. unfold summary.
  apply (rmap_Raise_at _ _ 0%nat (py "Not_graduated")); [reflexivity| |intros; lia].
  now rewrite (summarize_float64 _ _ _ _ Hcol).
Qed.

Lemma high_and_low_no_rows_witness :
  high_and_low no_float_str (initially no_rows)
  = (Raise ValueError, initially no_rows).
Proof.
  apply (high_and_low_no_rows no_float_str (initially no_rows)).
  vm_compute. reflexivity.
Defined.

(** X11. Without a [States] column no row is ever built:
    [high_and_low] raises [KeyError], [TypeError] or [ValueError] at the
    first column of the list, and [KeyError] when that column holds at
    least one number. *)
Theorem high_and_low_needs_States float_str st :
  frame st !! States = None ->
  (forall col r, summarize float_str (frame st) col <> Ok r) /\
  (exists e, high_and_low float_str st = (Raise e, st) /\
             (e = KeyError \/ e = TypeError \/ e = ValueError)) /\
  (forall xs, frame st !! py "Not_graduated" = Some (Series.Float64 xs) ->
              Series.count xs <> 0%nat ->
              high_and_low float_str st = (Raise KeyError, st)).
Proof.
  intros Hst. split; [|split].
  - intros col r. now apply summarize_without_States.
  - destruct (summarize float_str (frame st) (py "Not_graduated")) as [r|e] eqn:E.
    + exfalso. exact (summarize_without_States _ _ _ _ Hst E).
    + exists e. split; [|exact (summarize_Raise _ _ _ _ E)].
      apply high_and_low_Raise. unfold summary.
      apply (rmap_Raise_at _ _ 0%nat (py "Not_graduated"));
        [reflexivity|exact E|intros; lia].
  - intros xs Hcol Hcount. apply high_and_low_Raise. unfold summary.
    apply (rmap_Raise_at _ _ 0%nat (py "Not_graduated")); [reflexivity| |intros; lia].
    rewrite (summarize_float64 _ _ _ _ Hcol). unfold Series.idxmax, DataFrame.loc.
    apply Nat.eqb_neq in Hcount. rewrite Hcount, Hst. reflexivity.
Qed.

Lemma high_and_low_needs_States_witness :
  high_and_low no_float_str (initially ca_tx_without_States)
  = (Raise KeyError, initially ca_tx_without_States).
Proof.
  destruct (high_and_low_needs_States no_float_str (initially ca_tx_without_States))
    as (_ & _ & H).
  - vm_compute. reflexivity.
  - apply (H [15.8; 14.9]%float); [vm_compute; reflexivity|discriminate].
Defined.

(** X12. The two procedures are not independent: once [choropleth] has
    returned, the row that [high_and_low] builds for a column of
    numbers names the highest and the lowest state by their
    abbreviations, where before it named them by the values of the
    [States] column as they stood, white space included; the numbers
    of the row are the same. *)
Theorem summary_after_choropleth lookup float_str st n col names xs :
  DataFrame.rows (frame st) n -> n <> 0%nat ->
  frame st !! States = Some (Series.Text names) ->
  frame st !! col = Some (Series.Float64 xs) ->
  numeric xs ->
  fst (choropleth lookup st) = Ok tt ->
  exists r r' i_max i_min s_max s_min a_max a_min,
    summarize float_str (frame st) col = Ok r /\
    summarize float_str (frame (snd (choropleth lookup st))) col = Ok r' /\
    names !! i_max = Some s_max /\ get_abbr lookup (strip s_max) = Ok a_max /\
    names !! i_min = Some s_min /\ get_abbr lookup (strip s_min) = Ok a_min /\
    Highest_State r = s_max ++ py " (" ++ format_2f (Series.nanmax xs) ++ py ")" /\
    Highest_State r' = a_max ++ py " (" ++ format_2f (Series.nanmax xs) ++ py ")" /\
    Lowest_State r = s_min ++ py " (" ++ format_2f (Series.nanmin xs) ++ py ")" /\
    Lowest_State r' = a_min ++ py " (" ++ format_2f (Series.nanmin xs) ++ py ")" /\
    Average_SD r' = Average_SD r /\ Variable_ r' = Variable_ r.
Proof.
  intros Hrows Hn Hst Hcol Hnum.
  assert (Hne_col : States <> col) by (intros <-; congruence).
  assert (Hlen_names : length names = n) by exact (Hrows _ _ Hst).
  assert (Hlen_xs : length xs = n) by exact (Hrows _ _ Hcol).
  assert (Hne : xs <> []) by (intros ->; simpl in Hlen_xs; congruence).
  rewrite choropleth_run, Hst.
  destruct (rmap (get_abbr lookup) (List.map strip names)) as [abbrs|e] eqn:Hr;
    [|discriminate].
  cbv zeta. destruct (frame st !! Avg_PM25) as [pm25|]; [|discriminate].
  intros _. cbn [snd frame].
  assert (Hall : Forall2 (fun v a => get_abbr lookup (strip v) = Ok a) names abbrs).
  { apply (Forall2_map_l (fun a b => get_abbr lookup a = Ok b) strip).
    apply rmap_Ok_iff, Hr. }
  destruct (idxmax_spec xs Hne Hnum) as [Himax (y_max & (Hmax_at & _) & _)].
  destruct (idxmin_spec xs Hne Hnum) as [Himin (y_min & (Hmin_at & _) & _)].
  destruct (lookup_lt_is_Some_2 names (Series.argmax xs)) as [s_max Hs_max].
  { rewrite Hlen_names, <- Hlen_xs. exact (lookup_lt_Some _ _ _ Hmax_at). }
  destruct (lookup_lt_is_Some_2 names (Series.argmin xs)) as [s_min Hs_min].
  { rewrite Hlen_names, <- Hlen_xs. exact (lookup_lt_Some _ _ _ Hmin_at). }
  destruct (Forall2_lookup_l _ _ _ _ _ Hall Hs_max) as (a_max & Ha_max & Hg_max).
  destruct (Forall2_lookup_l _ _ _ _ _ Hall Hs_min) as (a_min & Ha_min & Hg_min).
  assert (Hst' : <[States := Series.Text abbrs]> (frame st) !! States
                 = Some (Series.Text abbrs)) by apply lookup_insert_eq.
  assert (Hcol' : <[States := Series.Text abbrs]> (frame st) !! col
                  = Some (Series.Float64 xs)) by (now rewrite lookup_insert_ne).
  eexists _, _, (Series.argmax xs), (Series.argmin xs), s_max, s_min, a_max, a_min.
  split.
  { rewrite (summarize_float64 _ _ _ _ Hcol), Himax, Himin. cbn [rbind].
    rewrite (loc_States _ _ _ _ Hst Hs_max). cbn [rbind].
    rewrite (loc_States _ _ _ _ Hst Hs_min). cbn [rbind]. reflexivity. }
  split.
  { rewrite (summarize_float64 _ _ _ _ Hcol'), Himax, Himin. cbn [rbind].
    rewrite (loc_States _ _ _ _ Hst' Ha_max). cbn [rbind].
    rewrite (loc_States _ _ _ _ Hst' Ha_min). cbn [rbind]. reflexivity. }
  cbn [Highest_State Lowest_State Average_SD Variable_ format_].
  repeat split; assumption.
Qed.

Lemma summary_after_choropleth_witness :
  (exists r, summarize no_float_str california_texas (py "HDI") = Ok r /\
             Highest_State r = py " California (0.90)" /\
             Lowest_State r = py "Texas  (0.80)") /\
  (exists r', summarize no_float_str
                (frame (snd (choropleth us.lookup_by_name (initially california_texas))))
                (py "HDI") = Ok r' /\
              Highest_State r' = py "CA (0.90)" /\
              Lowest_State r' = py "TX (0.80)").
Proof.
  destruct (summary_after_choropleth us.lookup_by_name no_float_str
              (initially california_texas) 2 (py "HDI")
              [py " California"; py "Texas "] [0.9; 0.8]%float)
    as (r & r' & i & j & smax & smin & amax & amin & Hr & Hr' & _).
  - apply (bool_decide_unpack _). vm_compute. exact I.
  - discriminate.
  - vm_compute. reflexivity.
  - vm_compute. reflexivity.
  - repeat constructor.
  - vm_compute. reflexivity.
  - split.
    + exists r. split; [exact Hr|]. vm_compute in Hr. injection Hr as <-.
      split; reflexivity.
    + exists r'. split; [exact Hr'|]. vm_compute in Hr'. injection Hr' as <-.
      split; reflexivity.
Defined.

Section FaultFacts.

Variable lookup : list N -> option us.State.

Lemma get_abbr_Raise_iff name :
  get_abbr lookup name = Raise AttributeError <->
  name <> py "District of Columbia" /\ lookup name = None.
Proof.
  split; [|intros [H1 H2]; now apply get_abbr_unknown].
  unfold get_abbr.
  destruct (bool_decide_reflect (name = py "District of Columbia")) as [E|E];
    [discriminate|].
  change (load_global "us") with (Ok tt). cbn [rbind].
  destruct (lookup name); [discriminate|]. auto.
Qed.

Lemma rmap_get_abbr_Raise names e :
  rmap (get_abbr lookup) (List.map strip names) = Raise e ->
  e = AttributeError /\
  Exists (fun v => strip v <> py "District of Columbia" /\ lookup (strip v) = None)
         names.
Proof.
  intros H. apply rmap_Raise_inv in H as (a & Hin & Ha).
  pose proof (get_abbr_Raise _ _ _ Ha) as ->. split; [reflexivity|].
  apply in_map_iff in Hin as (v & <- & Hv).
  apply List.Exists_exists. exists v. split; [exact Hv|].
  now apply get_abbr_Raise_iff.
Qed.

End FaultFacts.

(** X13. What each fault of [choropleth] means.  After [KeyError],
    there is no [States] column, or every name resolves and there is
    no [Avg_PM25] column.  After [AttributeError], the [States] column
    does not hold strings, or the trimmed name of some row is neither
    the District of Columbia nor known to the directory.  A data set
    without a [States] column gets [KeyError], one whose [States]
    column holds numbers gets [AttributeError], and both are left
    untouched. *)
Theorem choropleth_faults lookup st :
  (fst (choropleth lookup st) = Raise KeyError ->
   frame st !! States = None \/
   exists names,
     frame st !! States = Some (Series.Text names) /\
     Forall (fun v => strip v = py "District of Columbia" \/
                      is_Some (lookup (strip v))) names /\
     frame st !! Avg_PM25 = None) /\
  (fst (choropleth lookup st) = Raise AttributeError ->
   (exists xs, frame st !! States = Some (Series.Float64 xs)) \/
   exists names,
     frame st !! States = Some (Series.Text names) /\
     Exists (fun v => strip v <> py "District of Columbia" /\
                      lookup (strip v) = None) names) /\
  (frame st !! States = None ->
   choropleth lookup st = (Raise KeyError, st)) /\
  (forall xs, frame st !! States = Some (Series.Float64 xs) ->
   choropleth lookup st = (Raise AttributeError, st)).
Proof.
  rewrite choropleth_run.
  destruct (frame st !! States) as [[names|xs]|] eqn:Hst.
  - destruct (rmap (get_abbr lookup) (List.map strip names)) as [abbrs|e] eqn:Hr.
    + assert (Hall : Forall (fun v => strip v = py "District of Columbia" \/
                                      is_Some (lookup (strip v))) names)
        by (apply rmap_get_abbr_is_Ok; eauto).
      cbv zeta. destruct (frame st !! Avg_PM25) as [pm25|] eqn:Hpm; cbn [fst snd].
      * repeat split; discriminate.
      * split; [|repeat split; discriminate].
        intros _. right. exists names. auto.
    + destruct (rmap_get_abbr_Raise _ _ _ Hr) as [-> Hex]. cbn [fst snd].
      split; [discriminate|]. split; [|split; discriminate].
      intros _. right. exists names. auto.
  - cbn [fst snd]. split; [discriminate|]. split; [|split; [discriminate|reflexivity]].
    intros _. left. eauto.
  - cbn [fst snd]. split; [auto|]. split; [discriminate|].
    split; [reflexivity|discriminate].
Qed.

Lemma choropleth_faults_witness :
  choropleth us.lookup_by_name (initially ca_tx_without_States)
  = (Raise KeyError, initially ca_tx_without_States) /\
  exists names,
    frame (initially with_atlantis) !! States = Some (Series.Text names) /\
    Exists (fun v => strip v <> py "District of Columbia" /\
                     us.lookup_by_name (strip v) = None) names.
Proof.
  split.
  - destruct (choropleth_faults us.lookup_by_name (initially ca_tx_without_States))
      as (_ & _ & H & _).
    apply H. vm_compute. reflexivity.
  - destruct (choropleth_faults us.lookup_by_name (initially with_atlantis))
      as (_ & H & _).
    destruct H as [[xs H]|H]; [vm_compute; reflexivity|discriminate H|exact H].
Defined.
